(** * setlistfm-playlist-sync: the frequency ranker and the setlist retriever

    A shallow embedding of [utils.top_songs] and of the request and
    pagination logic of [setlist_api] ([make_request],
    [fetch_setlists_for_year], [_extract_songs_from_setlist]), followed by
    the properties stated for them.  The artist search of [setlist_api],
    the playlist functions of [ytmusic_api] and the argument checks of
    [cli.main] are embedded as well.

    Python integers are [Z].  Python strings are [string]; a character is
    read as the code point of the same number (the Latin-1 range), which is
    where [str.lower], [str.isdigit] and the ordering of strings are
    modelled.  Decoded JSON is the inductive type [json].  Exceptions are
    values of the type [exn], and a computation that may raise returns a
    [result]. *)

From Stdlib Require Import ZArith List Bool Lia String Ascii Sorted Permutation.
From Stdlib Require Import DecimalString DecimalZ.
Import ListNotations.
Open Scope string_scope.
Open Scope list_scope.
Open Scope Z_scope.

Set Implicit Arguments.

(* ================================================================== *)
(** ** Python strings *)

Module PyStr.

Definition code (c : ascii) : N := N_of_ascii c.

(** [str.lower] on one character: A-Z, and the accented capitals
    U+00C0..U+00DE other than the multiplication sign U+00D7, move 32 code
    points up; every other character of the range is its own lower case. *)
Definition lower_char (c : ascii) : ascii :=
  let n := code c in
  if ((65 <=? n) && (n <=? 90))%N
     || ((192 <=? n) && (n <=? 222) && negb (n =? 215))%N
  then ascii_of_N (n + 32)
  else c.

Fixpoint lower (s : string) : string :=
  match s with
  | EmptyString => EmptyString
  | String c s' => String (lower_char c) (lower s')
  end.

(** [s1 < s2] and [s1 <= s2] on strings: lexicographic on code points. *)
Definition lt (s1 s2 : string) : bool := String.ltb s1 s2.
Definition le (s1 s2 : string) : bool := String.leb s1 s2.

(** The decimal digits 0-9. *)
Definition is_decimal (c : ascii) : bool :=
  ((48 <=? code c) && (code c <=? 57))%N.

(** [str.isdigit] accepts, besides the decimal digits, the superscript
    digits U+00B2, U+00B3 and U+00B9, which [int] refuses. *)
Definition isdigit_char (c : ascii) : bool :=
  is_decimal c
  || (code c =? 178)%N || (code c =? 179)%N || (code c =? 185)%N.

Fixpoint all_chars (p : ascii -> bool) (s : string) : bool :=
  match s with
  | EmptyString => true
  | String c s' => p c && all_chars p s'
  end.

(** [s.isdigit()]: every character is a digit and there is at least one. *)
Definition isdigit (s : string) : bool :=
  match s with
  | EmptyString => false
  | _ => all_chars isdigit_char s
  end.

(** The white space [int] strips from both ends of its argument: the six
    characters of C's [isspace] (tab to carriage return, and the space), and
    the two spaces beyond U+007F, U+0085 and U+00A0, which [int] turns into
    a space before it reads the string.  The separators U+001C..U+001F,
    which [str.strip] removes, are not among them: [int] refuses them. *)
Definition is_space (c : ascii) : bool :=
  let n := code c in
  ((9 <=? n) && (n <=? 13))%N || (n =? 32)%N
  || (n =? 133)%N || (n =? 160)%N.

Fixpoint lstrip (s : string) : string :=
  match s with
  | String c s' => if is_space c then lstrip s' else s
  | EmptyString => EmptyString
  end.

Fixpoint rstrip (s : string) : string :=
  match s with
  | EmptyString => EmptyString
  | String c s' =>
      match rstrip s' with
      | EmptyString => if is_space c then EmptyString else String c EmptyString
      | r => String c r
      end
  end.

Definition strip (s : string) : string := rstrip (lstrip s).

(** The digits of an integer literal may be grouped by single underscores:
    [drop_underscores prev_digit s] removes them, and fails on an
    underscore that does not stand between two digits. *)
Fixpoint drop_underscores (prev_digit : bool) (s : string) : option string :=
  match s with
  | EmptyString => Some EmptyString
  | String c s' =>
      if (code c =? 95)%N then
        match s' with
        | String d _ =>
            if prev_digit && is_decimal d then drop_underscores false s'
            else None
        | EmptyString => None
        end
      else option_map (String c) (drop_underscores (is_decimal c) s')
  end.

(** The longest run of digits that [int] reads and that [str] writes:
    [sys.get_int_max_str_digits()], 4300 unless the interpreter is told
    otherwise, which this program never does.  Beyond it both raise
    [ValueError] (in Python 3.11, and in the releases of 3.7 to 3.10 that
    carry the limit). *)
Definition MAX_STR_DIGITS : Z := 4300.

(** The value of a non-empty run of at most [MAX_STR_DIGITS] decimal
    digits. *)
Definition digits_value (s : string) : option Z :=
  match s with
  | EmptyString => None
  | _ =>
      if Z.of_nat (String.length s) >? MAX_STR_DIGITS then None
      else option_map Z.of_uint (NilEmpty.uint_of_string s)
  end.

(** [int(s)] in base ten; [None] is [ValueError]. *)
Definition int (s : string) : option Z :=
  match strip s with
  | EmptyString => None
  | String c s' =>
      let '(neg, body) :=
        if (code c =? 45)%N then (true, s')
        else if (code c =? 43)%N then (false, s')
        else (false, String c s') in
      match drop_underscores false body with
      | Some ds =>
          option_map (fun v => if neg : bool then - v else v) (digits_value ds)
      | None => None
      end
  end.

(** [str(z)] of an integer: its decimal digits, after a minus sign when it
    is negative.  [str_fits z] tells whether [str] accepts [z], which it
    does when [z] has at most [MAX_STR_DIGITS] digits; for the others
    [str(z)] raises [ValueError]. *)
Definition str (z : Z) : string := NilZero.string_of_int (Z.to_int z).

Definition str_fits (z : Z) : bool :=
  Z.of_nat (String.length (str (Z.abs z))) <=? MAX_STR_DIGITS.

(** [len(s)] and the slice [s[-4:]]. *)
Definition len (s : string) : Z := Z.of_nat (String.length s).

Definition last4 (s : string) : string :=
  substring (String.length s - 4)%nat 4 s.

End PyStr.

(* ================================================================== *)
(** ** The frequency ranker: [utils.top_songs] *)

(** [collections.Counter(songs)]: a dict from title to count; a dict keeps
    its keys in the order of their first insertion, which [sorted] then
    sees, so the counter is an association list in that order. *)
Fixpoint counter_add (t : string) (c : list (string * Z)) : list (string * Z) :=
  match c with
  | [] => [(t, 1)]
  | (k, v) :: c' =>
      if String.eqb k t then (k, v + 1) :: c'
      else (k, v) :: counter_add t c'
  end.

Definition Counter (songs : list string) : list (string * Z) :=
  fold_left (fun c t => counter_add t c) songs [].

(** The sort key [lambda kv: (-kv[1], kv[0].lower())]. *)
Definition sort_key (kv : string * Z) : Z * string :=
  (- snd kv, PyStr.lower (fst kv)).

(** [<] on the key tuples: the first components decide unless they are
    equal. *)
Definition key_lt (k1 k2 : Z * string) : bool :=
  (fst k1 <? fst k2) || ((fst k1 =? fst k2) && PyStr.lt (snd k1) (snd k2)).

(** [sorted(items, key=...)] is a stable sort that compares keys with [<]
    only.  The result of a stable sort does not depend on the algorithm;
    it is written here as the stable insertion sort: an item goes in front
    of the first item of the sorted tail that is not strictly smaller. *)
Section Sorted.
Variables (A K : Type) (key : A -> K) (lt : K -> K -> bool).

Fixpoint insert_sorted (x : A) (l : list A) : list A :=
  match l with
  | [] => [x]
  | y :: l' =>
      if lt (key y) (key x) then y :: insert_sorted x l' else x :: l
  end.

Fixpoint sorted (l : list A) : list A :=
  match l with
  | [] => []
  | x :: l' => insert_sorted x (sorted l')
  end.

(** [x] may stand in front of [y] in a sorted list: [y] is not strictly
    smaller. *)
Definition not_after (x y : A) : Prop := lt (key y) (key x) = false.
End Sorted.
Arguments not_after {A K} key lt x y.

(** The slice [l[:n]]: the first [n] items, and for a negative [n] all but
    the last [-n]. *)
Definition slice_to (A : Type) (l : list A) (n : Z) : list A :=
  if n <? 0 then firstn (List.length l - Z.to_nat (- n))%nat l
  else firstn (Z.to_nat n) l.

(** The full ranking, before the slice. *)
Definition ranking (songs : list string) : list (string * Z) :=
  sorted sort_key key_lt (Counter songs).

Definition top_songs (songs : list string) (n : Z) : list string :=
  map fst (slice_to (ranking songs) n).

(** The default [n = 20]. *)
Definition top_songs_default (songs : list string) : list string :=
  top_songs songs 20.





(* ================================================================== *)
(** ** Python values and exceptions *)

(** What [Response.json()] decodes to.  A dict is an association list read
    from the left; numbers are the integers the catalog sends (counts, page
    sizes), and JSON [true] and [false] are Python's [bool], an [int]. *)
#[warnings="-register-all"]
Inductive json : Type :=
| JNull
| JBool (b : bool)
| JInt (z : Z)
| JStr (s : string)
| JList (l : list json)
| JDict (d : list (string * json)).

(** A [requests.Response]: the status code, the [Retry-After] header when
    there is one, and the decoded body when the body is valid JSON. *)
Record Response : Type := mkResponse {
  status_code : Z;
  retry_after_header : option string;
  body : option json
}.

(** A [requests.exceptions.RequestException].  [raise_for_status] raises an
    [HTTPError] that carries the response; what [requests.get] raises
    itself (connection errors, timeouts, redirect loops) has a [response]
    attribute that is usually [None]. *)
Inductive RequestException : Type :=
| HTTPError (r : Response)
| TransportFailure (what : string) (resp : option Response).

Definition exc_response (e : RequestException) : option Response :=
  match e with
  | HTTPError r => Some r
  | TransportFailure _ resp => resp
  end.

Inductive exn : Type :=
| RequestError (e : RequestException)
    (** a requests exception, propagated as it was raised *)
| RuntimeError_after_retries (cause : RequestException)
    (** [RuntimeError(f"Failed to make request after {MAX_RETRIES} retries: {e}")] *)
| RuntimeError_max_retries
    (** [RuntimeError("Failed to make request after max retries")] *)
| JSONDecodeError
| ValueError
| OverflowError
| AttributeError
| TypeError
| Unmodelled
    (** stands for a Python behaviour outside this model: the ordering of
        two lists, a sleep of more than [SLEEP_SAFE] seconds *).

Inductive result (A : Type) : Type :=
| Ok (a : A)
| Raise (e : exn).
Arguments Ok {A} a.
Arguments Raise {A} e.

Definition rbind (A B : Type) (m : result A) (k : A -> result B) : result B :=
  match m with
  | Ok a => k a
  | Raise e => Raise e
  end.

Notation "'try' x <- m 'in' k" := (rbind m (fun x => k))
  (at level 10, x pattern, m at level 100, k at level 200).

Module Py.

(** Truth value of a decoded JSON value. *)
Definition truthy (v : json) : bool :=
  match v with
  | JNull => false
  | JBool b => b
  | JInt z => negb (z =? 0)
  | JStr s => negb (String.eqb s EmptyString)
  | JList l => match l with [] => false | _ => true end
  | JDict d => match d with [] => false | _ => true end
  end.

Fixpoint lookup (k : string) (d : list (string * json)) : option json :=
  match d with
  | [] => None
  | (k', v) :: d' => if String.eqb k' k then Some v else lookup k d'
  end.

(** [v.get(k, default)]: only a dict has the method. *)
Definition get (v : json) (k : string) (default : json) : result json :=
  match v with
  | JDict d => Ok (match lookup k d with Some x => x | None => default end)
  | _ => Raise AttributeError
  end.

Fixpoint chars (s : string) : list json :=
  match s with
  | EmptyString => []
  | String c s' => JStr (String c EmptyString) :: chars s'
  end.

(** What [for x in v] iterates over: the items of a list, the keys of a
    dict, the characters of a string. *)
Definition iter (v : json) : result (list json) :=
  match v with
  | JList l => Ok l
  | JDict d => Ok (map (fun kv => JStr (fst kv)) d)
  | JStr s => Ok (chars s)
  | _ => Raise TypeError
  end.

Definition len (v : json) : result Z :=
  match v with
  | JStr s => Ok (PyStr.len s)
  | JList l => Ok (Z.of_nat (List.length l))
  | JDict d => Ok (Z.of_nat (List.length d))
  | _ => Raise TypeError
  end.

Definition as_int (v : json) : option Z :=
  match v with
  | JInt z => Some z
  | JBool b => Some (if b then 1 else 0)
  | _ => None
  end.

Fixpoint repeat_string (n : nat) (s : string) : string :=
  match n with
  | O => EmptyString
  | S n' => (s ++ repeat_string n' s)%string
  end.

(** [n * v] for an integer [n]: a product of integers, or a repetition of
    a string or of a list. *)
Definition mul_int (n : Z) (v : json) : result json :=
  match v with
  | JInt _ | JBool _ =>
      match as_int v with Some z => Ok (JInt (n * z)) | None => Raise TypeError end
  | JStr s => Ok (JStr (repeat_string (Z.to_nat n) s))
  | JList l => Ok (JList (List.concat (repeat l (Z.to_nat n))))
  | _ => Raise TypeError
  end.

(** [a >= b]. *)
Definition ge (a b : json) : result bool :=
  match as_int a, as_int b with
  | Some x, Some y => Ok (x >=? y)
  | _, _ =>
      match a, b with
      | JStr s, JStr t => Ok (PyStr.le t s)
      | JList _, JList _ => Raise Unmodelled
      | _, _ => Raise TypeError
      end
  end.

End Py.

(* ================================================================== *)
(** ** Song extraction: [_extract_songs_from_setlist] *)

(** The inner loop, over the entries of one set:
    [name = song.get("name")], kept when [name and not song.get("tape")]. *)
Fixpoint extract_set_songs (set_songs : list json) (songs : list json)
  : result (list json) :=
  match set_songs with
  | [] => Ok songs
  | song :: rest =>
      try name <- Py.get song "name" JNull in
      if Py.truthy name then
        try tape <- Py.get song "tape" JNull in
        if negb (Py.truthy tape) then extract_set_songs rest (songs ++ [name])
        else extract_set_songs rest songs
      else extract_set_songs rest songs
  end.

(** The outer loop, over the sets. *)
Fixpoint extract_sets (sets : list json) (songs : list json)
  : result (list json) :=
  match sets with
  | [] => Ok songs
  | set_data :: rest =>
      if negb (Py.truthy set_data) then extract_sets rest songs
      else
        try set_songs <- Py.get set_data "song" (JList []) in
        try entries <- Py.iter set_songs in
        try songs' <- extract_set_songs entries songs in
        extract_sets rest songs'
  end.

(** [sets = [sets] if sets else []] when [sets] is not a list. *)
Definition normalize_sets (sets : json) : list json :=
  match sets with
  | JList l => l
  | _ => if Py.truthy sets then [sets] else []
  end.

Definition _extract_songs_from_setlist (setlist : json) : result (list json) :=
  try sets_data <- Py.get setlist "sets" (JDict []) in
  try sets <- Py.get sets_data "set" (JList []) in
  extract_sets (normalize_sets sets) [].

Definition sample_setlist : json :=
  JDict [("sets", JDict [("set", JList [JDict [("song",
     JList [JDict [("name", JStr "Song 1")]; JDict [("name", JStr "Song 2")]])]])])].



(* ================================================================== *)
(** ** The outside world: HTTP requests and sleeps *)

(** One call of [requests.get(url, params=..., headers=HEADERS, timeout=...)];
    the headers are the same constant in every call. *)
Record Request : Type := mkRequest {
  url : string;
  params : list (string * Z);
  timeout : Z
}.

Inductive get_outcome : Type :=
| Returns (r : Response)
| Fails (e : RequestException).

(** What the program does to the world, in order. *)
Inductive event : Type :=
| Get (req : Request)
| Sleep (seconds : Z).

Definition is_get (ev : event) : bool :=
  match ev with Get _ => true | Sleep _ => false end.

Definition gets (t : list event) : list event := filter is_get t.

(** The network answers the k-th GET of a run (counted from 0) according to
    the request made. *)
Definition Network : Type := nat -> Request -> get_outcome.

(** A computation with effects: from the trace so far to a result and the
    extended trace. *)
Definition M (A : Type) : Type := list event -> result A * list event.

Definition ret (A : Type) (a : A) : M A := fun t => (Ok a, t).
Definition raise (A : Type) (e : exn) : M A := fun t => (Raise e, t).
Definition lift (A : Type) (r : result A) : M A := fun t => (r, t).
Arguments raise {A} e.

Definition bind (A B : Type) (m : M A) (k : A -> M B) : M B :=
  fun t =>
    match m t with
    | (Ok a, t') => k a t'
    | (Raise e, t') => (Raise e, t')
    end.

Notation "x <- m ;; k" := (bind m (fun x => k))
  (at level 61, m at next level, right associativity).
Notation "m ;;; k" := (bind m (fun _ => k))
  (at level 61, right associativity).

(** [time.sleep(seconds)] with an integer argument.  The length is turned
    into a signed 64-bit count of nanoseconds first: a number of seconds
    beyond [SLEEP_MAX] in either direction does not fit and is an
    [OverflowError].  A negative length that fits is a [ValueError].  A
    length of at most [SLEEP_SAFE] seconds, which is 2^32 - 1 milliseconds
    rounded down, is slept by every interpreter the package supports, on
    every system.  What becomes of a longer one depends on the system, the
    interpreter and the clock (the deadline, the reading of the monotonic
    clock plus the length, is computed in 64 bits again; the interpreters
    before 3.11 count the milliseconds in 32 bits on Windows), and is not
    modelled. *)
Definition SLEEP_MAX : Z := 9223372036.
Definition SLEEP_SAFE : Z := 4294967.

Definition sleep_error (seconds : Z) : option exn :=
  if (seconds <? - SLEEP_MAX) || (SLEEP_MAX <? seconds) then Some OverflowError
  else if seconds <? 0 then Some ValueError
  else if SLEEP_SAFE <? seconds then Some Unmodelled
  else None.

Definition sleep (seconds : Z) : M unit :=
  fun t =>
    match sleep_error seconds with
    | Some e => (Raise e, t)
    | None => (Ok tt, t ++ [Sleep seconds])
    end.

Definition BASE : string := "https://api.setlist.fm/rest/1.0".
Definition RATE_LIMIT_DELAY : Z := 1.
Definition MAX_RETRIES : Z := 3.

(** [Response.raise_for_status()] raises for the statuses 400..599. *)
Definition is_error_status (r : Response) : bool :=
  (400 <=? status_code r) && (status_code r <? 600).

(** [Response.__bool__] of the requests library returns [self.ok]: a
    response is true exactly when [raise_for_status] would not raise. *)
Definition Response_bool (r : Response) : bool := negb (is_error_status r).

(** A [unittest.mock.Mock] standing for a response is always true. *)
Definition Mock_bool (r : Response) : bool := true.

Section Retriever.

(** The truth value of the response object attached to an exception
    ([e.response] used as a condition), and the network. *)
Variable response_bool : Response -> bool.
Variable net : Network.

Definition requests_get (req : Request) : M get_outcome :=
  fun t => (Ok (net (List.length (gets t)) req), t ++ [Get req]).

(** The [except requests.exceptions.RequestException as e] clause.
    [hasattr(e, 'response')] holds for every such exception. *)
Definition should_reraise (e : RequestException) : bool :=
  match exc_response e with
  | Some resp => response_bool resp && negb (status_code resp =? 429)
  | None => false
  end.

(** The loop [while attempts < MAX_RETRIES].  Every path that stays in the
    loop adds one to [attempts], so the recursion is on
    [remaining = MAX_RETRIES - attempts]; with [remaining = 0] the loop
    condition fails and the statement after the loop runs. *)
Fixpoint make_request_loop (req : Request) (remaining : nat) (retry_after : Z)
  : M Response :=
  match remaining with
  | O => raise RuntimeError_max_retries
  | S remaining' =>
      let attempts := MAX_RETRIES - Z.of_nat remaining in
      let handler (e : RequestException) : M Response :=
        if should_reraise e then raise (RequestError e)
        else if attempts >=? MAX_RETRIES - 1
             then raise (RuntimeError_after_retries e)
             else make_request_loop req remaining' retry_after in
      o <- requests_get req ;;
      match o with
      | Returns r =>
          if status_code r =? 429 then
            match retry_after_header r with
            | Some h =>
                match PyStr.int h with
                | Some d => sleep d ;;; make_request_loop req remaining' d
                | None => raise ValueError
                end
            | None =>
                let d := retry_after * 2 in
                sleep d ;;; make_request_loop req remaining' d
            end
          else if is_error_status r then handler (HTTPError r)
          else sleep RATE_LIMIT_DELAY ;;; ret r
      | Fails e => handler e
      end
  end.

Definition make_request (url : string) (params : list (string * Z))
  (timeout : Z) : M Response :=
  make_request_loop (mkRequest url params timeout)
    (Z.to_nat MAX_RETRIES) RATE_LIMIT_DELAY.

(** *** [fetch_setlists_for_year] *)

(** The loop over the setlists of one page; [older] is
    [older_than_year]. *)
Fixpoint scan_setlists (year : Z) (setlists : list json)
  (songs : list json) (older : bool) : result (list json * bool) :=
  match setlists with
  | [] => Ok (songs, older)
  | setlist :: rest =>
      try event_date <- Py.get setlist "eventDate" (JStr EmptyString) in
      try n <- Py.len event_date in
      if n >=? 10 then
        match event_date with
        | JStr s =>
            let setlist_year := PyStr.last4 s in
            if String.eqb setlist_year (PyStr.str year) then
              try setlist_songs <- _extract_songs_from_setlist setlist in
              scan_setlists year rest (songs ++ setlist_songs) older
            else if PyStr.isdigit setlist_year then
              match PyStr.int setlist_year with
              | Some y =>
                  scan_setlists year rest songs (if y <? year then true else older)
              | None => Raise ValueError
              end
            else scan_setlists year rest songs older
        | JList _ => Raise AttributeError   (* a list has no [isdigit] *)
        | _ => Raise TypeError              (* a dict is not sliced *)
        end
      else scan_setlists year rest songs older
  end.

Inductive page_outcome : Type :=
| Break (songs : list json)
| Continue (songs : list json).

Definition response_json (r : Response) : result json :=
  match body r with
  | Some v => Ok v
  | None => Raise JSONDecodeError
  end.

(** The body of the page loop after the request. *)
Definition process_page (year page_num : Z) (r : Response)
  (songs : list json) : result page_outcome :=
  if status_code r =? 404 then Ok (Break songs)
  else
    try data <- response_json r in
    try setlists <- Py.get data "setlist" (JList []) in
    if negb (Py.truthy setlists) then Ok (Break songs)
    else
      try entries <- Py.iter setlists in
      try scanned <- scan_setlists year entries songs false in
      let '(songs', older_than_year) := scanned in
      if older_than_year : bool then Ok (Break songs')
      else
        try total <- Py.get data "total" (JInt 0) in
        try items_per_page <- Py.get data "itemsPerPage" (JInt 20) in
        try product <- Py.mul_int page_num items_per_page in
        try last <- Py.ge product total in
        if last : bool then Ok (Break songs') else Ok (Continue songs').

Definition setlists_url (mbid : string) : string :=
  (BASE ++ "/artist/" ++ mbid ++ "/setlists")%string.

(** [for page_num in range(1, max_pages + 1)], with [pages_left] pages
    still in the range. *)
Fixpoint fetch_pages (mbid : string) (year : Z) (pages_left : nat)
  (page_num : Z) (songs : list json) : M (list json) :=
  match pages_left with
  | O => ret songs
  | S pages_left' =>
      r <- make_request (setlists_url mbid) [("p", page_num)] 30 ;;
      outcome <- lift (process_page year page_num r songs) ;;
      match outcome with
      | Break songs' => ret songs'
      | Continue songs' =>
          fetch_pages mbid year pages_left' (page_num + 1) songs'
      end
  end.

(** [target_year = str(year)] comes first, and raises when [str] refuses
    the year; the loop compares with the same string on every page. *)
Definition fetch_setlists_for_year (mbid : string) (year : Z)
  (max_pages : Z) : M (list json) :=
  if PyStr.str_fits year then fetch_pages mbid year (Z.to_nat max_pages) 1 []
  else raise ValueError.

End Retriever.

(** The default [max_pages = 50]. *)
Definition fetch_setlists_for_year_default response_bool net mbid year :=
  fetch_setlists_for_year response_bool net mbid year 50.

(* ================================================================== *)
(** ** Notions used to state the properties *)

(** [before x y l]: some occurrence of [x] in [l] has a [y] after it. *)
Inductive before (A : Type) (x y : A) : list A -> Prop :=
| before_here l : In y l -> before x y (x :: l)
| before_later z l : before x y l -> before x y (z :: l).

(** [counter[t]]: the count of a title, 0 for a title never seen. *)
Fixpoint counter_get (t : string) (c : list (string * Z)) : Z :=
  match c with
  | [] => 0
  | (k, v) :: c' => if String.eqb k t then v else counter_get t c'
  end.

(** The number of occurrences of the exact title [t] in [L], and the number
    of distinct titles of [L]. *)
Definition occurrences (L : list string) (t : string) : Z :=
  Z.of_nat (count_occ string_dec L t).

Definition distinct_titles (L : list string) : nat :=
  List.length (nodup string_dec L).

(** The order of the ranking as the specification words it: [a] may stand
    in front of [b] when it occurs more often, or as often with a
    case-insensitive title that is not greater. *)
Definition rank_le (L : list string) (a b : string) : Prop :=
  occurrences L b < occurrences L a
  \/ (occurrences L a = occurrences L b
      /\ PyStr.le (PyStr.lower a) (PyStr.lower b) = true).

(** The first occurrence of [a] in [L] comes before every occurrence of
    [b], and [b] occurs. *)
Definition first_before (a b : string) (L : list string) : Prop :=
  exists l1 l2, L = l1 ++ a :: l2 /\ ~ In a l1 /\ ~ In b l1 /\ In b l2.

Definition is_prefix (A : Type) (p l : list A) : Prop :=
  exists k, l = p ++ k.

(** *** The retriever *)

(** How long [make_request] sleeps on a 429 response [r] when the current
    backoff is [retry_after]: the integer in the [Retry-After] header, or
    twice the backoff when the header is absent; [None] when the header is
    not an integer. *)
Definition rate_limit_delay (r : Response) (retry_after : Z) : option Z :=
  match retry_after_header r with
  | Some h => PyStr.int h
  | None => Some (retry_after * 2)
  end.

(** A setlist entry whose event date ends in four digits that read as a
    year below [year]. *)
Definition older_entry (year : Z) (entry : json) : Prop :=
  exists s y,
    Py.get entry "eventDate" (JStr EmptyString) = Ok (JStr s)
    /\ 10 <= PyStr.len s
    /\ PyStr.isdigit (PyStr.last4 s) = true
    /\ PyStr.int (PyStr.last4 s) = Some y
    /\ y < year.

(** The page numbered [page_num] in the response [r] is the last one:
    [page_num * itemsPerPage >= total], with the defaults of the code for
    absent fields. *)
Definition page_is_last (page_num : Z) (r : Response) : Prop :=
  exists data total items_per_page x y,
    body r = Some data
    /\ Py.get data "total" (JInt 0) = Ok total
    /\ Py.get data "itemsPerPage" (JInt 20) = Ok items_per_page
    /\ Py.as_int total = Some x
    /\ Py.as_int items_per_page = Some y
    /\ page_num * y >= x.

(** The states of the page loop that a call of [fetch_setlists_for_year]
    started on the trace [t0] goes through: pages left, page number, songs
    so far, trace so far.  The loop is entered once [str(year)] has been
    computed. *)
Inductive loop_at (response_bool : Response -> bool) (net : Network)
  (mbid : string) (year max_pages : Z) (t0 : list event)
  : nat -> Z -> list json -> list event -> Prop :=
| loop_first :
    PyStr.str_fits year = true ->
    loop_at response_bool net mbid year max_pages t0
      (Z.to_nat max_pages) 1 [] t0
| loop_next pages_left page_num songs t r t' songs' :
    loop_at response_bool net mbid year max_pages t0
      (S pages_left) page_num songs t ->
    make_request response_bool net (setlists_url mbid) [("p", page_num)] 30 t
    = (Ok r, t') ->
    process_page year page_num r songs = Ok (Continue songs') ->
    loop_at response_bool net mbid year max_pages t0
      pages_left (page_num + 1) songs' t'.

(** Every GET of a trace asks for a page between 1 and [max_pages]. *)
Definition pages_within (max_pages : Z) (t : list event) : Prop :=
  forall req, In (Get req) t ->
    exists p, params req = [("p", p)] /\ 1 <= p <= max_pages.

(** The shapes of a setlist record that the extraction is written for:
    [sets] absent or an object; [set] absent, null, one group or a sequence
    of groups; a group null or an object whose [song], when present, is a
    sequence of objects. *)
Definition entry_ok (song : json) : bool :=
  match song with JDict _ => true | _ => false end.

Definition group_ok (g : json) : bool :=
  match g with
  | JNull => true
  | JDict d =>
      match Py.lookup "song" d with
      | None => true
      | Some (JList songs) => forallb entry_ok songs
      | Some _ => false
      end
  | _ => false
  end.

Definition setlist_ok (setlist : json) : bool :=
  match setlist with
  | JDict d =>
      match Py.lookup "sets" d with
      | None => true
      | Some (JDict sd) =>
          match Py.lookup "set" sd with
          | None | Some JNull => true
          | Some (JList groups) => forallb group_ok groups
          | Some (JDict g) => group_ok (JDict g)
          | Some _ => false
          end
      | Some _ => false
      end
  | _ => false
  end.

(** What the specification asks of the extraction, written on its own: the
    set groups as a sequence, and for each entry its name when it has one
    and is not flagged as tape. *)
Definition spec_groups (setlist : json) : list json :=
  match setlist with
  | JDict d =>
      match Py.lookup "sets" d with
      | Some (JDict sd) =>
          match Py.lookup "set" sd with
          | Some (JList groups) => groups
          | Some (JDict g) => [JDict g]
          | _ => []
          end
      | _ => []
      end
  | _ => []
  end.

Definition spec_entry_title (song : json) : list json :=
  match song with
  | JDict d =>
      match Py.lookup "name" d with
      | Some name =>
          let tape := match Py.lookup "tape" d with
                      | Some v => Py.truthy v
                      | None => false
                      end in
          if Py.truthy name && negb tape then [name] else []
      | None => []
      end
  | _ => []
  end.

Definition spec_group_titles (g : json) : list json :=
  match g with
  | JDict d =>
      match Py.lookup "song" d with
      | Some (JList songs) => flat_map spec_entry_title songs
      | _ => []
      end
  | _ => []
  end.

Definition spec_titles (setlist : json) : list json :=
  flat_map spec_group_titles (spec_groups setlist).

(** A setlist record as the catalog documents it: an object with sets of
    the shapes above, whose [eventDate], when there is one, is a string
    that ends in decimal digits (the format is dd-MM-yyyy); of a date
    shorter than four characters, all the characters are asked to be. *)
Definition catalog_entry (entry : json) : bool :=
  setlist_ok entry
  && match Py.get entry "eventDate" (JStr EmptyString) with
     | Ok (JStr s) => PyStr.all_chars PyStr.is_decimal (PyStr.last4 s)
     | _ => false
     end.

(** *** Responses and networks of the test suite *)

Definition rate_limited (h : option string) : Response := mkResponse 429 h None.

Definition success_response : Response :=
  mkResponse 200 None (Some (JDict [("test", JStr "data")])).

Definition status_response (status : Z) : Response := mkResponse status None None.

Definition test_request : Request := mkRequest "https://test.url" [] 20.

(** A network that answers the successive GETs from a list, and with
    [last] once the list is used up. *)
Definition scripted (answers : list get_outcome) (last : get_outcome) : Network :=
  fun k _ => nth k answers last.

Definition dated_setlist (date : string) : json :=
  JDict [("eventDate", JStr date);
         ("sets", JDict [("set", JList [JDict [("song",
            JList [JDict [("name", JStr "Song 1")];
                   JDict [("name", JStr "Song 2")]])]])])].

Definition setlists_page (entries : list json) (page total : Z) : Response :=
  mkResponse 200 None
    (Some (JDict [("setlist", JList entries); ("page", JInt page);
                  ("total", JInt total); ("itemsPerPage", JInt 20)])).

Definition page_param (req : Request) : Z :=
  match params req with
  | [(_, p)] => p
  | _ => 0
  end.

(** Two pages of results, 40 in total, 20 per page. *)
Definition two_pages : Network :=
  fun _ req =>
    Returns (setlists_page [dated_setlist "15-10-2023"] (page_param req) 40).

(** One page of results, then "not found". *)
Definition page_then_404 : Network :=
  fun _ req =>
    if page_param req =? 1
    then Returns (setlists_page [dated_setlist "15-10-2023"] 1 40)
    else Returns (status_response 404).

(** A first page that already holds a setlist of the year before, with
    many more results announced. *)
Definition page_with_older : Network :=
  fun _ req =>
    Returns (setlists_page
               [dated_setlist "15-10-2023"; dated_setlist "31-12-2022"]
               (page_param req) 100).

(** The same, with the older setlist in front. *)
Definition page_older_first : Network :=
  fun _ req =>
    Returns (setlists_page
               [dated_setlist "31-12-2022"; dated_setlist "15-10-2023"]
               (page_param req) 100).

(** Two pages of results, each with one setlist of the given date. *)
Definition pages_dated (date : string) : Network :=
  fun _ req => Returns (setlists_page [dated_setlist date] (page_param req) 40).

(** One page that holds the only result. *)
Definition single_page : Network :=
  fun _ req => Returns (setlists_page [dated_setlist "15-10-2023"] 1 1).

Definition page_request (mbid : string) (page_num : Z) : Request :=
  mkRequest (setlists_url mbid) [("p", page_num)] 30.

(* ================================================================== *)
(** ** Artist search: [search_artist] *)

(** What [search_artist] raises or returns.  Besides the exceptions of the
    Python operations there are the [KeyError] of a subscript with an
    absent key and the [ValueError(f"Artist not found: {artist_name}")] of
    the function itself. *)
Inductive search_exn : Type :=
| ArtistNotFound (artist_name : string)
| KeyError (key : string)
| PyError (e : exn).

Inductive search_result : Type :=
| Found (name mbid : json)
    (** the dict [{"name": ..., "mbid": ...}] *)
| SearchRaise (e : search_exn).

(** [v[k]] with a string key: the value of a dict, [KeyError] for an absent
    key; lists and strings take integer indices only and the other values
    no subscript. *)
Definition subscript (v : json) (k : string) : search_result + json :=
  match v with
  | JDict d =>
      match Py.lookup k d with
      | Some x => inr x
      | None => inl (SearchRaise (KeyError k))
      end
  | _ => inl (SearchRaise (PyError TypeError))
  end.

(** [v.lower()]: only a string has the method. *)
Definition lower_of (v : json) : search_result + string :=
  match v with
  | JStr s => inr (PyStr.lower s)
  | _ => inl (SearchRaise (PyError AttributeError))
  end.

Fixpoint starts_with (p s : string) : bool :=
  match p, s with
  | EmptyString, _ => true
  | String a p', String b s' => Ascii.eqb a b && starts_with p' s'
  | String _ _, EmptyString => false
  end.

(** [needle in hay] on strings. *)
Fixpoint contains (needle hay : string) : bool :=
  starts_with needle hay
  || match hay with
     | EmptyString => false
     | String _ hay' => contains needle hay'
     end.

(** [return {"name": artist["name"], "mbid": artist["mbid"]}]. *)
Definition artist_record (artist : json) : search_result :=
  match subscript artist "name" with
  | inl e => e
  | inr name =>
      match subscript artist "mbid" with
      | inl e => e
      | inr mbid => Found name mbid
      end
  end.

(** The first loop: the first artist whose lower-cased name is the
    lower-cased query.  [None] when the loop ends without a [return]. *)
Fixpoint exact_match (artist_name : string) (artists : list json)
  : option search_result :=
  match artists with
  | [] => None
  | artist :: rest =>
      match subscript artist "name" with
      | inl e => Some e
      | inr name =>
          match lower_of name with
          | inl e => Some e
          | inr low =>
              if String.eqb low (PyStr.lower artist_name)
              then Some (artist_record artist)
              else exact_match artist_name rest
          end
      end
  end.

(** The condition of the second loop: no ["feat."] in the lower-cased name
    and no ["tribute"] in the lower-cased disambiguation, which is read
    only when the first half holds. *)
Definition is_clean (artist : json) : search_result + bool :=
  match subscript artist "name" with
  | inl e => inl e
  | inr name =>
      match lower_of name with
      | inl e => inl e
      | inr low =>
          if negb (contains "feat." low) then
            match Py.get artist "disambiguation" (JStr EmptyString) with
            | Raise e => inl (SearchRaise (PyError e))
            | Ok dis =>
                match lower_of dis with
                | inl e => inl e
                | inr dlow => inr (negb (contains "tribute" dlow))
                end
            end
          else inr false
      end
  end.

Fixpoint clean_match (artists : list json) : option search_result :=
  match artists with
  | [] => None
  | artist :: rest =>
      match is_clean artist with
      | inl e => Some e
      | inr true => Some (artist_record artist)
      | inr false => clean_match rest
      end
  end.

(** [data["artist"][0]], reached after both loops went over the value. *)
Definition first_artist (candidates : json) : search_result + json :=
  match candidates with
  | JList (artist :: _) => inr artist
  | JDict _ => inl (SearchRaise (KeyError "0"))
  | JStr s => inr (JStr (substring 0 1 s))
  | _ => inl (SearchRaise (PyError TypeError))
  end.

(** [search_artist] from the response of its request on: the request is
    one [make_request] of [BASE/search/artists] with the parameters
    [artistName] and [p = 1], whose exceptions propagate.  The debug line
    takes [len(data.get('artist', []))] before anything else is looked
    at. *)
Definition search_artist_in (artist_name : string) (data : json)
  : search_result :=
  match Py.get data "artist" (JList []) with
  | Raise e => SearchRaise (PyError e)
  | Ok logged =>
      match Py.len logged with
      | Raise e => SearchRaise (PyError e)
      | Ok _ =>
          match Py.get data "artist" JNull with
          | Raise e => SearchRaise (PyError e)
          | Ok candidates =>
              if Py.truthy candidates then
                match Py.iter candidates with
                | Raise e => SearchRaise (PyError e)
                | Ok artists =>
                    match exact_match artist_name artists with
                    | Some res => res
                    | None =>
                        match clean_match artists with
                        | Some res => res
                        | None =>
                            match first_artist candidates with
                            | inl e => e
                            | inr artist => artist_record artist
                            end
                        end
                    end
                end
              else SearchRaise (ArtistNotFound artist_name)
          end
      end
  end.

Definition search_artist_response (artist_name : string) (r : Response)
  : search_result :=
  match response_json r with
  | Raise e => SearchRaise (PyError e)
  | Ok data => search_artist_in artist_name data
  end.

(** An artist record as the catalog sends it: an object with a string
    [name], an [mbid], and a [disambiguation] that is a string when it is
    there. *)
Definition artist_ok (artist : json) : bool :=
  match artist with
  | JDict d =>
      match Py.lookup "name" d, Py.lookup "mbid" d with
      | Some (JStr _), Some _ =>
          match Py.lookup "disambiguation" d with
          | None | Some (JStr _) => true
          | Some _ => false
          end
      | _, _ => false
      end
  | _ => false
  end.

(** The lower-cased name of an artist record, and whether it is the
    query. *)
Definition name_is (artist_name : string) (artist : json) : bool :=
  match artist with
  | JDict d =>
      match Py.lookup "name" d with
      | Some (JStr s) => String.eqb (PyStr.lower s) (PyStr.lower artist_name)
      | _ => false
      end
  | _ => false
  end.

Definition artist_json (name mbid : string) (disambiguation : option string)
  : json :=
  JDict (("name", JStr name) :: ("mbid", JStr mbid)
         :: match disambiguation with
            | Some d => [("disambiguation", JStr d)]
            | None => []
            end).

(* ================================================================== *)
(** ** The streaming side: [ytmusic_api] *)

(** [[f"{artist} - {title}" for title in titles]]. *)
Definition build_queries (artist : string) (titles : list string) : list string :=
  map (fun title => (artist ++ " - " ++ title)%string) titles.

(** What the module does to its [YTMusic] client and to the clock, in
    order: the four methods it calls, and [time.sleep(0.1)]. *)
Inductive yt_call : Type :=
| GetLibraryPlaylists (limit : Z)
| CreatePlaylist (title description privacy_status : string)
| Search (query filter : string)
| AddPlaylistItems (playlist_id : json) (video_ids : list json) (duplicates : bool)
| SleepTenth.

Inductive yt_answer : Type :=
| Gives (v : json)
| Throws (what : string).

(** The client answers a call according to the call and to how far the run
    has got (the number of events before it). *)
Definition YTMusic : Type := nat -> yt_call -> yt_answer.

(** A result of the functions that let an exception of the client
    through. *)
Inductive yt_result (A : Type) : Type :=
| Done (a : A)
| Failed (what : string).
Arguments Done {A} a.
Arguments Failed {A} what.

(** How the loop over the library playlists ends. *)
Inductive playlist_lookup : Type :=
| LookupReturn (playlist_id : json)
| LookupEnd
| LookupRaise.

(** [for playlist in playlists: if playlist["title"].lower() ==
    title.lower(): return playlist["playlistId"]]. *)
Fixpoint find_playlist (title : string) (playlists : list json) : playlist_lookup :=
  match playlists with
  | [] => LookupEnd
  | playlist :: rest =>
      match subscript playlist "title" with
      | inl _ => LookupRaise
      | inr t =>
          match lower_of t with
          | inl _ => LookupRaise
          | inr low =>
              if String.eqb low (PyStr.lower title) then
                match subscript playlist "playlistId" with
                | inl _ => LookupRaise
                | inr playlist_id => LookupReturn playlist_id
                end
              else find_playlist title rest
          end
      end
  end.

(** [results[0].get("videoId")] when it is there and counts as true;
    [None] when nothing is appended, be it for a missing id or for an
    exception, which the loop swallows. *)
Definition first_video_id (results : json) : option json :=
  match results with
  | JList (JDict d :: _) =>
      match Py.lookup "videoId" d with
      | Some video_id => if Py.truthy video_id then Some video_id else None
      | None => None
      end
  | _ => None
  end.

Section YTMusicClient.

Variable ytm : YTMusic.

(** [str(v)] of what [create_playlist] returned: the string itself, and
    for another value its printed form, which is left open. *)
Variable repr : json -> string.

Definition py_str (v : json) : string :=
  match v with
  | JStr s => s
  | _ => repr v
  end.

Definition call (c : yt_call) (t : list yt_call) : yt_answer * list yt_call :=
  (ytm (List.length t) c, t ++ [c]).

(** The [try] block of [_find_or_create_playlist] and what follows it:
    every exception of the block is swallowed and leads to the creation of
    a playlist, whose exception is let through. *)
Definition _find_or_create_playlist (title description : string)
  (t : list yt_call) : yt_result json * list yt_call :=
  let '(listing, t1) := call (GetLibraryPlaylists 200) t in
  let found :=
    match listing with
    | Gives playlists =>
        match Py.iter playlists with
        | Ok items => find_playlist title items
        | Raise _ => LookupRaise
        end
    | Throws _ => LookupRaise
    end in
  match found with
  | LookupReturn playlist_id => (Done playlist_id, t1)
  | _ =>
      let '(created, t2) := call (CreatePlaylist title description "PRIVATE") t1 in
      match created with
      | Gives playlist_id => (Done (JStr (py_str playlist_id)), t2)
      | Throws what => (Failed what, t2)
      end
  end.

(** One turn of the loop of [_search_for_videos], the sleep left out: the
    search for songs, the search for videos when that gave nothing, and the
    id of the first result. *)
Definition search_one (query : string) (t : list yt_call)
  : option json * list yt_call :=
  let '(songs, t1) := call (Search query "songs") t in
  match songs with
  | Throws _ => (None, t1)
  | Gives results =>
      if Py.truthy results then (first_video_id results, t1)
      else
        let '(videos, t2) := call (Search query "videos") t1 in
        match videos with
        | Throws _ => (None, t2)
        | Gives results2 =>
            if Py.truthy results2 then (first_video_id results2, t2)
            else (None, t2)
        end
  end.

Fixpoint search_loop (queries : list string) (video_ids : list json)
  (t : list yt_call) : list json * list yt_call :=
  match queries with
  | [] => (video_ids, t)
  | query :: rest =>
      let '(found, t1) := search_one query t in
      let video_ids' :=
        match found with
        | Some video_id => video_ids ++ [video_id]
        | None => video_ids
        end in
      search_loop rest video_ids' (t1 ++ [SleepTenth])
  end.

Definition _search_for_videos (queries : list string) (t : list yt_call)
  : list json * list yt_call :=
  search_loop queries [] t.

Definition create_or_update_ytmusic_playlist (title description : string)
  (queries : list string) (t : list yt_call)
  : yt_result (json * list json) * list yt_call :=
  match _find_or_create_playlist title description t with
  | (Failed what, t1) => (Failed what, t1)
  | (Done playlist_id, t1) =>
      let '(video_ids, t2) := _search_for_videos queries t1 in
      match video_ids with
      | [] => (Done (playlist_id, video_ids), t2)
      | _ :: _ =>
          let '(added, t3) := call (AddPlaylistItems playlist_id video_ids true) t2 in
          match added with
          | Gives _ => (Done (playlist_id, video_ids), t3)
          | Throws what => (Failed what, t3)
          end
      end
  end.

End YTMusicClient.

(** The events of the searches for a list of queries: for each query in
    turn a search for songs, at most one search for videos after it, and
    the pause. *)
Inductive search_rounds : list string -> list yt_call -> Prop :=
| search_rounds_nil : search_rounds [] []
| search_rounds_songs query rest evs :
    search_rounds rest evs ->
    search_rounds (query :: rest)
      (Search query "songs" :: SleepTenth :: evs)
| search_rounds_videos query rest evs :
    search_rounds rest evs ->
    search_rounds (query :: rest)
      (Search query "songs" :: Search query "videos" :: SleepTenth :: evs).

Definition is_add (c : yt_call) : bool :=
  match c with AddPlaylistItems _ _ _ => true | _ => false end.

Definition is_create (c : yt_call) : bool :=
  match c with CreatePlaylist _ _ _ => true | _ => false end.

(** A playlist of the library as the client returns it. *)
Definition playlist_json (title playlist_id : string) : json :=
  JDict [("title", JStr title); ("playlistId", JStr playlist_id)].

Definition playlist_ok (playlist : json) : bool :=
  match playlist with
  | JDict d =>
      match Py.lookup "title" d with
      | Some (JStr _) => true
      | _ => false
      end
  | _ => false
  end.

Definition title_is (title : string) (playlist : json) : bool :=
  match playlist with
  | JDict d =>
      match Py.lookup "title" d with
      | Some (JStr s) => String.eqb (PyStr.lower s) (PyStr.lower title)
      | _ => false
      end
  | _ => false
  end.

(* ================================================================== *)
(** ** The command line: the checks of [cli.main] *)

(** The validation of the parsed arguments: the message of the first
    [parser.error] that fires, which ends the program, or [None]. *)
Definition validate_args (tracks year : Z) : option string :=
  if tracks <? 1 then Some "Number of tracks must be at least 1"
  else if tracks >? 100 then Some "Number of tracks cannot exceed 100"
  else if (year <? 1950) || (year >? 2030)
       then Some "Year must be between 1950 and 2030"
       else None.

(* ================================================================== *)
(** ** Further notions used to state properties *)

(** The sum of the counts of a counter. *)
Definition total_count (c : list (string * Z)) : Z :=
  fold_right Z.add 0 (map snd c).

(** No two distinct titles of [L] differ in letter case only. *)
Definition case_distinct (L : list string) : Prop :=
  forall a b, In a L -> In b L -> PyStr.lower a = PyStr.lower b -> a = b.

(** The events of [k] attempts at one request: each attempt is a GET of
    [req], followed by at most one sleep, of a length that is not
    negative. *)
Inductive rounds (req : Request) : nat -> list event -> Prop :=
| rounds_nil : rounds req 0 []
| rounds_get k evs :
    rounds req k evs -> rounds req (S k) (Get req :: evs)
| rounds_get_sleep k d evs :
    0 <= d -> rounds req k evs -> rounds req (S k) (Get req :: Sleep d :: evs).

(** The event date of a setlist entry has ten characters or more and ends
    in the target year. *)
Definition year_matches (year : Z) (entry : json) : bool :=
  match Py.get entry "eventDate" (JStr EmptyString) with
  | Ok (JStr s) =>
      (10 <=? PyStr.len s) && String.eqb (PyStr.last4 s) (PyStr.str year)
  | _ => false
  end.

(** The songs that one page contributes: those of its entries of the
    target year, in the order of the page. *)
Definition page_songs (year : Z) (entries : list json) : list json :=
  flat_map (fun entry =>
              if year_matches year entry then
                match _extract_songs_from_setlist entry with
                | Ok titles => titles
                | Raise _ => []
                end
              else [])
    entries.

(** The songs held when a page has been processed. *)
Definition outcome_songs (o : page_outcome) : list json :=
  match o with
  | Break songs => songs
  | Continue songs => songs
  end.

(* ================================================================== *)
(** * Properties of the frequency ranker *)

Unset Implicit Arguments.

(** *** The examples of the test suite *)

Example top_songs_basic :
  top_songs_default ["Song A"; "Song B"; "Song A"; "Song C"; "Song A"; "Song B"]
  = ["Song A"; "Song B"; "Song C"].
Proof. reflexivity. Qed.

Example top_songs_case :
  top_songs_default ["song b"; "Song A"; "song b"] = ["song b"; "Song A"].
Proof. reflexivity. Qed.

Example top_songs_mixed :
  top_songs ["apple"; "Banana"; "cherry"; "apple"] 3 = ["apple"; "Banana"; "cherry"].
Proof. reflexivity. Qed.

Example int_examples :
  PyStr.int "2" = Some 2 /\ PyStr.int " -1_000 " = Some (-1000)
  /\ PyStr.int "1__0" = None /\ PyStr.int EmptyString = None /\ PyStr.int "+" = None
  /\ PyStr.int "2023" = Some 2023 /\ PyStr.str 2023 = "2023"
  /\ PyStr.str (-7) = "-7" /\ PyStr.str 0 = "0"
  /\ PyStr.last4 "15-10-2023" = "2023".
Proof. repeat split; reflexivity. Qed.

Example extract_sample :
  _extract_songs_from_setlist sample_setlist = Ok [JStr "Song 1"; JStr "Song 2"].
Proof. reflexivity. Qed.

Example extract_no_sets :
  _extract_songs_from_setlist (JDict [("sets", JDict [])]) = Ok []
  /\ _extract_songs_from_setlist (JDict []) = Ok []
  /\ _extract_songs_from_setlist (JDict [("sets", JDict [("set", JList [])])]) = Ok [].
Proof. repeat split; reflexivity. Qed.


Section ListOrder.
Variable A : Type.
Implicit Types (x y z : A) (l e : list A).

Lemma before_In_r x y l : before x y l -> In y l.
Proof. induction 1; simpl; auto. Qed.

Lemma before_In_l x y l : before x y l -> In x l.
Proof. induction 1; simpl; auto. Qed.

Lemma before_app_r x y l e : before x y l -> before x y (l ++ e).
Proof.
  induction 1; simpl.
  - apply before_here. apply in_or_app. now left.
  - now apply before_later.
Qed.

Lemma before_app_l x y l e : before x y l -> before x y (e ++ l).
Proof. intros H. induction e; simpl; [assumption | now apply before_later]. Qed.

Lemma before_snoc x y l : In x l -> before x y (l ++ [y]).
Proof.
  induction l as [|z l IH]; simpl; [tauto|].
  intros [-> | Hin].
  - apply before_here. apply in_or_app. right. now left.
  - apply before_later. auto.
Qed.

Lemma before_firstn x y l n :
  NoDup l -> before x y l -> In y (firstn n l) -> before x y (firstn n l).
Proof.
  intros Hnd Hb. revert n. induction Hb as [l Hy | z l Hb IH]; intros n Hin.
  - destruct n as [|n]; simpl in *; [tauto|].
    destruct Hin as [-> | Hin].
    + inversion Hnd; subst. exfalso; auto.
    + now apply before_here.
  - destruct n as [|n]; simpl in *; [tauto|].
    inversion Hnd; subst.
    destruct Hin as [-> | Hin].
    + exfalso. apply before_In_r in Hb. auto.
    + apply before_later. auto.
Qed.

(** In a list without duplicates the order of two items is one way only. *)
Lemma before_asym x y l : NoDup l -> before x y l -> ~ before y x l.
Proof.
  intros Hnd Hb. induction Hb as [l Hy | z l Hb IH]; intros Hc.
  - inversion Hnd; subst. inversion Hc; subst.
    + auto.
    + apply before_In_r in H0. auto.
  - inversion Hnd; subst. inversion Hc; subst.
    + apply before_In_r in Hb. auto.
    + now apply IH.
Qed.
End ListOrder.

Lemma before_map (A B : Type) (f : A -> B) (x y : A) l :
  before x y l -> before (f x) (f y) (map f l).
Proof.
  induction 1; simpl.
  - apply before_here. now apply in_map.
  - now apply before_later.
Qed.

(** *** The stable sort *)

Section SortedFacts.
Variables (A K : Type) (key : A -> K) (lt : K -> K -> bool).

Lemma insert_sorted_perm x l : Permutation (insert_sorted key lt x l) (x :: l).
Proof.
  induction l as [|y l IH]; simpl; [reflexivity|].
  destruct (lt (key y) (key x)); [|reflexivity].
  rewrite IH. apply perm_swap.
Qed.

Lemma sorted_perm l : Permutation (sorted key lt l) l.
Proof.
  induction l as [|x l IH]; simpl; [reflexivity|].
  rewrite insert_sorted_perm. now constructor.
Qed.

Lemma insert_sorted_keeps_before z x y l :
  before x y l -> before x y (insert_sorted key lt z l).
Proof.
  induction l as [|w l IH]; intros Hb; [inversion Hb|].
  simpl. destruct (lt (key w) (key z)).
  - inversion Hb; subst.
    + apply before_here.
      apply (Permutation_in _ (Permutation_sym (insert_sorted_perm z l))).
      now right.
    + apply before_later. auto.
  - now apply before_later.
Qed.

Lemma insert_sorted_in_front x y l :
  In y l -> lt (key y) (key x) = false ->
  before x y (insert_sorted key lt x l).
Proof.
  induction l as [|w l IH]; intros Hin Hlt; [inversion Hin|].
  simpl. destruct (lt (key w) (key x)) eqn:Hw.
  - destruct Hin as [-> | Hin]; [congruence|].
    apply before_later. auto.
  - now apply before_here.
Qed.

(** Stability: an item stays in front of every later item that is not
    strictly smaller. *)
Lemma sorted_stable x y l :
  before x y l -> lt (key y) (key x) = false ->
  before x y (sorted key lt l).
Proof.
  induction 1 as [l Hy | z l Hb IH]; intros Hlt; simpl.
  - apply insert_sorted_in_front; [|assumption].
    apply (Permutation_in _ (Permutation_sym (sorted_perm l))). assumption.
  - apply insert_sorted_keeps_before. auto.
Qed.

Hypothesis lt_asym : forall a b, lt a b = true -> lt b a = false.

Lemma insert_sorted_Sorted x l :
  Sorted (not_after key lt) l -> Sorted (not_after key lt) (insert_sorted key lt x l).
Proof.
  induction 1 as [|y l Hs IH Hhd]; simpl.
  - repeat constructor.
  - destruct (lt (key y) (key x)) eqn:Hyx.
    + constructor; [assumption|].
      destruct l as [|w l]; simpl.
      * constructor. unfold not_after. now apply lt_asym.
      * destruct (lt (key w) (key x)).
        -- constructor. now inversion Hhd.
        -- constructor. unfold not_after. now apply lt_asym.
    + constructor; [now constructor|]. now constructor.
Qed.

Lemma sorted_Sorted l : Sorted (not_after key lt) (sorted key lt l).
Proof.
  induction l; simpl; [constructor|]. now apply insert_sorted_Sorted.
Qed.
End SortedFacts.

Lemma Sorted_map (A B : Type) (f : A -> B) (R : A -> A -> Prop)
  (R' : B -> B -> Prop) l :
  (forall x y, In x l -> In y l -> R x y -> R' (f x) (f y)) ->
  Sorted R l -> Sorted R' (map f l).
Proof.
  intros HR Hs. induction Hs as [|x l Hs IH Hhd]; simpl; [constructor|].
  constructor.
  - apply IH. intros; apply HR; simpl; auto.
  - destruct Hhd as [|y l' Hxy]; simpl; constructor.
    apply HR; simpl; auto.
Qed.

(** *** The counter *)

Lemma counter_add_keys t c :
  map fst (counter_add t c)
  = if in_dec string_dec t (map fst c) then map fst c else map fst c ++ [t].
Proof.
  induction c as [|[k v] c IH]; simpl.
  - reflexivity.
  - destruct (String.eqb_spec k t) as [->|Hne]; simpl.
    + destruct (string_dec t t); [reflexivity | congruence].
    + rewrite IH. destruct (string_dec k t); [congruence|].
      destruct (in_dec string_dec t (map fst c)); reflexivity.
Qed.

Lemma counter_add_In t c x :
  In x (map fst (counter_add t c)) <-> In x (map fst c) \/ x = t.
Proof.
  rewrite counter_add_keys.
  destruct (in_dec string_dec t (map fst c)) as [Hin|Hout].
  - split; [auto | intros [H | ->]; auto].
  - rewrite in_app_iff. simpl. intuition.
Qed.

Lemma counter_add_NoDup t c :
  NoDup (map fst c) -> NoDup (map fst (counter_add t c)).
Proof.
  intros Hnd. rewrite counter_add_keys.
  destruct (in_dec string_dec t (map fst c)) as [Hin|Hout]; [assumption|].
  apply (Permutation_NoDup (Permutation_cons_append (map fst c) t)).
  now constructor.
Qed.

Lemma counter_get_add t t' c :
  counter_get t' (counter_add t c)
  = counter_get t' c + (if String.eqb t t' then 1 else 0).
Proof.
  induction c as [|[k v] c IH]; simpl.
  - reflexivity.
  - destruct (String.eqb_spec k t) as [->|Hne]; simpl.
    + destruct (String.eqb t t'); lia.
    + rewrite IH. destruct (String.eqb_spec k t') as [->|Hne'].
      * destruct (String.eqb_spec t t'); [congruence | lia].
      * reflexivity.
Qed.

Lemma counter_get_In t v c :
  NoDup (map fst c) -> In (t, v) c -> counter_get t c = v.
Proof.
  induction c as [|[k w] c IH]; simpl; [tauto|].
  intros Hnd [Heq | Hin].
  - inversion Heq; subst. now rewrite String.eqb_refl.
  - inversion Hnd; subst.
    destruct (String.eqb_spec k t) as [->|Hne]; [|auto].
    exfalso. apply H1. change t with (fst (t, v)). now apply in_map.
Qed.

Section CounterFold.
Local Abbreviation step :=
  (fun (c : list (string * Z)) (t : string) => counter_add t c).

Lemma fold_keys_NoDup L c :
  NoDup (map fst c) -> NoDup (map fst (fold_left step L c)).
Proof.
  revert c. induction L as [|t L IH]; simpl; intros c Hnd; [assumption|].
  apply IH. now apply counter_add_NoDup.
Qed.

Lemma fold_keys_In L c x :
  In x (map fst (fold_left step L c)) <-> In x (map fst c) \/ In x L.
Proof.
  revert c. induction L as [|t L IH]; simpl; intros c; [tauto|].
  rewrite IH, counter_add_In. intuition.
Qed.

Lemma fold_counter_get L c t :
  counter_get t (fold_left step L c) = counter_get t c + occurrences L t.
Proof.
  unfold occurrences.
  revert c. induction L as [|u L IH]; simpl; intros c; [lia|].
  rewrite IH, counter_get_add.
  destruct (string_dec u t) as [->|Hne].
  - rewrite String.eqb_refl. lia.
  - destruct (String.eqb_spec u t); [congruence | lia].
Qed.

Lemma fold_keeps_before L c x y :
  before x y (map fst c) -> before x y (map fst (fold_left step L c)).
Proof.
  revert c. induction L as [|t L IH]; simpl; intros c Hb; [assumption|].
  apply IH. rewrite counter_add_keys.
  destruct (in_dec string_dec t (map fst c)); [assumption|].
  now apply before_app_r.
Qed.

Lemma fold_new_before L c x y :
  In x (map fst c) -> ~ In y (map fst c) -> In y L ->
  before x y (map fst (fold_left step L c)).
Proof.
  revert c. induction L as [|t L IH]; simpl; intros c Hx Hy Hin; [tauto|].
  destruct (string_dec t y) as [->|Hne].
  - apply fold_keeps_before. rewrite counter_add_keys.
    destruct (in_dec string_dec y (map fst c)); [contradiction|].
    now apply before_snoc.
  - destruct Hin as [Heq|Hin]; [congruence|].
    apply IH; [| |assumption]; rewrite counter_add_In.
    + now left.
    + intros [H | H]; [contradiction | congruence].
Qed.
End CounterFold.

Lemma Counter_NoDup L : NoDup (map fst (Counter L)).
Proof. apply fold_keys_NoDup. constructor. Qed.

Lemma Counter_In L t : In t (map fst (Counter L)) <-> In t L.
Proof. unfold Counter. rewrite fold_keys_In. simpl. tauto. Qed.

(** The invariant of SongTally: the count of a title is the number of its
    occurrences in the input. *)
Lemma Counter_count L t v : In (t, v) (Counter L) -> v = occurrences L t.
Proof.
  intros Hin. rewrite <- (@counter_get_In t v _ (Counter_NoDup L) Hin).
  unfold Counter. now rewrite fold_counter_get.
Qed.

Lemma Counter_first_before a b L :
  a <> b -> first_before a b L -> before a b (map fst (Counter L)).
Proof.
  intros Hab (l1 & l2 & -> & Ha & Hb & Hin).
  unfold Counter. rewrite fold_left_app. simpl.
  apply fold_new_before; [| |assumption]; rewrite counter_add_In.
  - now right.
  - rewrite fold_keys_In. simpl. intros [[[]|H]|H]; [contradiction|].
    now apply Hab.
Qed.

(** *** The order of the keys *)

Lemma key_lt_asym k1 k2 : key_lt k1 k2 = true -> key_lt k2 k1 = false.
Proof.
  destruct k1 as [c1 s1], k2 as [c2 s2]. unfold key_lt, PyStr.lt, String.ltb.
  simpl. rewrite (String.compare_antisym s1 s2).
  destruct (Z.ltb_spec c1 c2), (Z.ltb_spec c2 c1), (Z.eqb_spec c1 c2),
    (Z.eqb_spec c2 c1), (String.compare s2 s1); simpl; intros; try lia;
    congruence.
Qed.

(** Two items of the counter that the sort leaves in this order are in the
    order of the specification. *)
Lemma not_after_rank_le L a b :
  In a (Counter L) -> In b (Counter L) ->
  not_after sort_key key_lt a b -> rank_le L (fst a) (fst b).
Proof.
  destruct a as [ta ca], b as [tb cb]. intros Ha Hb.
  apply Counter_count in Ha, Hb. subst ca cb.
  unfold not_after, sort_key, key_lt, rank_le, PyStr.lt, PyStr.le,
    String.ltb, String.leb. simpl.
  rewrite (String.compare_antisym (PyStr.lower ta) (PyStr.lower tb)).
  destruct (Z.ltb_spec (- occurrences L tb) (- occurrences L ta)),
    (Z.eqb_spec (- occurrences L tb) (- occurrences L ta)),
    (String.compare (PyStr.lower tb) (PyStr.lower ta));
    simpl; intros; try discriminate; try lia;
    right; split; try lia; reflexivity.
Qed.

(** *** The ranking *)

Lemma ranking_perm L : Permutation (ranking L) (Counter L).
Proof. apply sorted_perm. Qed.

Lemma ranking_titles_NoDup L : NoDup (map fst (ranking L)).
Proof.
  apply (Permutation_NoDup (Permutation_sym (Permutation_map fst (ranking_perm L)))).
  apply Counter_NoDup.
Qed.

Lemma ranking_titles_In L t : In t (map fst (ranking L)) <-> In t L.
Proof.
  split; intros H.
  - apply Counter_In.
    now apply (Permutation_in _ (Permutation_map fst (ranking_perm L))).
  - apply Counter_In in H.
    now apply (Permutation_in _
                 (Permutation_sym (Permutation_map fst (ranking_perm L)))).
Qed.

Lemma ranking_length L : List.length (ranking L) = distinct_titles L.
Proof.
  unfold distinct_titles.
  rewrite <- (length_map fst (ranking L)).
  apply Permutation_length, NoDup_Permutation.
  - apply ranking_titles_NoDup.
  - apply NoDup_nodup.
  - intros t. now rewrite ranking_titles_In, nodup_In.
Qed.

Lemma ranking_Sorted L : Sorted (rank_le L) (map fst (ranking L)).
Proof.
  apply Sorted_map with (R := not_after sort_key key_lt).
  - intros x y Hx Hy. apply not_after_rank_le;
      apply (Permutation_in _ (ranking_perm L)); assumption.
  - apply sorted_Sorted. exact key_lt_asym.
Qed.

Lemma top_songs_firstn L n :
  exists k, top_songs L n = firstn k (map fst (ranking L)).
Proof.
  unfold top_songs, slice_to. destruct (n <? 0); rewrite <- firstn_map; eauto.
Qed.

Lemma top_songs_nonneg L n :
  0 <= n -> top_songs L n = firstn (Z.to_nat n) (map fst (ranking L)).
Proof.
  intros Hn. unfold top_songs, slice_to.
  destruct (Z.ltb_spec n 0); [lia|]. now rewrite firstn_map.
Qed.

Lemma leb_trans a b c :
  String.leb a b = true -> String.leb b c = true -> String.leb a c = true.
Proof.
  unfold String.leb. revert b c.
  induction a as [|x a IH]; intros [|y b] [|z c]; simpl; try congruence.
  unfold Ascii.compare.
  destruct (N.compare_spec (N_of_ascii x) (N_of_ascii y)) as [Hxy|Hxy|Hxy];
    destruct (N.compare_spec (N_of_ascii y) (N_of_ascii z)) as [Hyz|Hyz|Hyz];
    destruct (N.compare_spec (N_of_ascii x) (N_of_ascii z)) as [Hxz|Hxz|Hxz];
    try congruence; try lia; try (intros; reflexivity).
  apply IH.
Qed.

Lemma rank_le_trans L a b c : rank_le L a b -> rank_le L b c -> rank_le L a c.
Proof.
  unfold rank_le, PyStr.le.
  intros [H1 | [H1 H1']] [H2 | [H2 H2']]; try (left; lia).
  right. split; [lia|]. eapply leb_trans; eassumption.
Qed.

Lemma ranking_StronglySorted L : StronglySorted (rank_le L) (map fst (ranking L)).
Proof.
  apply Sorted_StronglySorted; [|apply ranking_Sorted].
  intros a b c. apply rank_le_trans.
Qed.

Lemma before_map_inv (A B : Type) (f : A -> B) (x y : B) l :
  before x y (map f l) ->
  exists x' y', f x' = x /\ f y' = y /\ before x' y' l.
Proof.
  induction l as [|z l IH]; simpl; intros Hb; inversion Hb; subst.
  - apply in_map_iff in H0. destruct H0 as (y' & Hy & Hin).
    exists z, y'. repeat split; [assumption|]. now apply before_here.
  - destruct (IH H0) as (x' & y' & Hx & Hy & Hb').
    exists x', y'. repeat split; [assumption..|]. now apply before_later.
Qed.

Lemma firstn_is_prefix (A : Type) (l : list A) n m :
  (n <= m)%nat -> is_prefix (firstn n l) (firstn m l).
Proof.
  intros Hnm. exists (skipn n (firstn m l)).
  rewrite <- (firstn_skipn n (firstn m l)) at 1.
  f_equal. rewrite firstn_firstn. f_equal. lia.
Qed.

(* ------------------------------------------------------------------ *)
(** *** The claims about [top_songs] *)

(** C3, as stated, fails: with a negative [N] the slice [[:N]] drops the
    last [-N] entries of the ranking and keeps the others. *)
Lemma top_songs_negative_n_not_empty :
  -1 <= 0 /\ top_songs ["Song A"; "Song B"] (-1) = ["Song A"]
  /\ top_songs ["Song A"; "Song B"] (-1) <> [].
Proof. repeat split; [lia | discriminate]. Qed.

(** C3, amended: [top_songs L 0] is empty for every [L]; [top_songs [] N]
    is empty for every [N]; for [N < 0], [top_songs L N] is the full ranking
    without its last [-N] entries, which is empty exactly when [-N] is at
    least the number of distinct titles. *)
Theorem top_songs_empty_cases (L : list string) (N : Z) :
  top_songs L 0 = []
  /\ top_songs [] N = []
  /\ (N < 0 ->
      top_songs L N
      = firstn (distinct_titles L - Z.to_nat (- N)) (map fst (ranking L))
      /\ (top_songs L N = [] <-> (distinct_titles L <= Z.to_nat (- N))%nat)).
Proof.
  split; [reflexivity|]. split.
  - unfold top_songs, slice_to. simpl. destruct (N <? 0); simpl;
      [reflexivity | now rewrite firstn_nil].
  - intros HN.
    assert (E : top_songs L N
                = firstn (distinct_titles L - Z.to_nat (- N)) (map fst (ranking L))).
    { unfold top_songs, slice_to. destruct (Z.ltb_spec N 0); [|lia].
      now rewrite ranking_length, firstn_map. }
    split; [exact E|].
    rewrite E. split; intros H.
    + apply (f_equal (@List.length string)) in H.
      rewrite length_firstn, length_map, ranking_length in H. simpl in H. lia.
    + replace (distinct_titles L - Z.to_nat (- N))%nat with 0%nat by lia.
      reflexivity.
Qed.

Lemma top_songs_empty_cases_witness :
  -1 < 0
  /\ top_songs ["Song A"; "Song B"] (-1)
     = firstn (distinct_titles ["Song A"; "Song B"] - Z.to_nat (- -1))
         (map fst (ranking ["Song A"; "Song B"])).
Proof.
  split; [lia|].
  apply (proj2 (proj2 (top_songs_empty_cases ["Song A"; "Song B"] (-1)))).
  lia.
Defined.

(** C4: for [N >= 0], [top_songs L N] is the first [N] entries of a
    sequence that holds each distinct title of [L] once and is sorted by
    descending count, then ascending case-insensitive title; its length is
    the minimum of [N] and the number of distinct titles; and the example of
    the test suite evaluates as stated with the default [N = 20]. *)
Theorem top_songs_ranked_prefix (L : list string) (N : Z) :
  0 <= N ->
  (exists full,
      top_songs L N = firstn (Z.to_nat N) full
      /\ NoDup full
      /\ (forall t, In t full <-> In t L)
      /\ StronglySorted (rank_le L) full)
  /\ List.length (top_songs L N) = Nat.min (Z.to_nat N) (distinct_titles L)
  /\ top_songs_default
       ["Song A"; "Song B"; "Song A"; "Song C"; "Song A"; "Song B"]
     = ["Song A"; "Song B"; "Song C"].
Proof.
  intros HN. split; [|split; [|reflexivity]].
  - exists (map fst (ranking L)). split; [now apply top_songs_nonneg|].
    split; [apply ranking_titles_NoDup|].
    split; [apply ranking_titles_In | apply ranking_StronglySorted].
  - rewrite top_songs_nonneg by assumption.
    now rewrite length_firstn, length_map, ranking_length.
Qed.

Lemma top_songs_ranked_prefix_witness :
  List.length (top_songs ["b"; "a"; "b"] 1) = Nat.min (Z.to_nat 1) (distinct_titles ["b"; "a"; "b"]).
Proof.
  apply (proj1 (proj2 (top_songs_ranked_prefix ["b"; "a"; "b"] 1 ltac:(lia)))).
Defined.

(** C9: for [0 <= N <= M], [top_songs L N] is a prefix of [top_songs L M]. *)
Theorem top_songs_monotone_prefix (L : list string) (N M : Z) :
  0 <= N -> N <= M -> is_prefix (top_songs L N) (top_songs L M).
Proof.
  intros HN HM. rewrite !top_songs_nonneg by lia.
  apply firstn_is_prefix. lia.
Qed.

Lemma top_songs_monotone_prefix_witness :
  is_prefix (top_songs ["b"; "a"; "b"; "c"] 1) (top_songs ["b"; "a"; "b"; "c"] 2).
Proof.
  apply (top_songs_monotone_prefix ["b"; "a"; "b"; "c"] 1 2); lia.
Defined.

(** C10: two distinct titles with the same count and the same
    case-insensitive form come out in the order of their first occurrences
    in the input; that order need not be the order of the exact strings:
    ["song b"] is put in front of ["Song B"], which is the smaller string. *)
Theorem top_songs_case_tie_order :
  (forall (L : list string) (n : Z) (a b : string),
      a <> b ->
      occurrences L a = occurrences L b ->
      PyStr.lower a = PyStr.lower b ->
      first_before a b L ->
      In b (top_songs L n) ->
      before a b (top_songs L n) /\ ~ before b a (top_songs L n))
  /\ top_songs_default ["song b"; "Song B"] = ["song b"; "Song B"]
  /\ PyStr.lt "Song B" "song b" = true.
Proof.
  split; [|split; reflexivity].
  intros L n a b Hab Hocc Hlow Hfirst Hin.
  assert (Hb : before a b (map fst (ranking L))).
  { apply Counter_first_before in Hfirst; [|assumption].
    apply before_map_inv in Hfirst.
    destruct Hfirst as ([a' ca] & [b' cb] & Ha & Hb & Hbef). simpl in Ha, Hb.
    subst a' b'.
    pose proof (Counter_count _ _ _ (before_In_l _ _ _ _ Hbef)) as Hca.
    pose proof (Counter_count _ _ _ (before_In_r _ _ _ _ Hbef)) as Hcb.
    change a with (fst (a, ca)). change b with (fst (b, cb)).
    apply before_map. apply sorted_stable; [assumption|].
    unfold sort_key. simpl. rewrite Hca, Hcb, Hocc, Hlow.
    destruct (key_lt (- occurrences L b, PyStr.lower b)
                (- occurrences L b, PyStr.lower b)) eqn:E; [|reflexivity].
    now rewrite (key_lt_asym _ _ E) in E. }
  destruct (top_songs_firstn L n) as [k Hk]. rewrite Hk in *.
  pose proof (ranking_titles_NoDup L) as Hnd.
  assert (Hab' : before a b (firstn k (map fst (ranking L))))
    by now apply before_firstn.
  split; [assumption|].
  apply before_asym; [|assumption].
  rewrite <- (firstn_skipn k (map fst (ranking L))) in Hnd.
  now apply NoDup_app_remove_r in Hnd.
Qed.

Lemma top_songs_case_tie_order_witness :
  before "song b" "Song B" (top_songs ["song b"; "Song A"; "Song B"] 5).
Proof.
  apply (proj1 top_songs_case_tie_order ["song b"; "Song A"; "Song B"] 5
           "song b" "Song B").
  - discriminate.
  - reflexivity.
  - reflexivity.
  - exists [], ["Song A"; "Song B"]. simpl. intuition discriminate.
  - simpl. auto.
Defined.

(* ================================================================== *)
(** * Properties of the string functions *)

Lemma string_of_uint_decimal d :
  PyStr.all_chars PyStr.is_decimal (NilEmpty.string_of_uint d) = true.
Proof. induction d; simpl; auto. Qed.

Lemma decimal_not_space c : PyStr.is_decimal c = true -> PyStr.is_space c = false.
Proof.
  unfold PyStr.is_decimal, PyStr.is_space. intros H.
  apply andb_prop in H. destruct H as [H1 H2].
  apply N.leb_le in H1, H2.
  repeat match goal with
         | |- context [(?a <=? ?b)%N] => destruct (N.leb_spec a b)
         | |- context [(?a =? ?b)%N] => destruct (N.eqb_spec a b)
         end; simpl; try reflexivity; lia.
Qed.

Lemma decimal_not_mark c n :
  PyStr.is_decimal c = true -> (n < 48 \/ 57 < n)%N -> (PyStr.code c =? n)%N = false.
Proof.
  unfold PyStr.is_decimal. intros H Hn.
  apply andb_prop in H. destruct H as [H1 H2].
  apply N.leb_le in H1, H2. apply N.eqb_neq. lia.
Qed.

Lemma rstrip_decimal s :
  PyStr.all_chars PyStr.is_decimal s = true -> PyStr.rstrip s = s.
Proof.
  induction s as [|c s IH]; simpl; [reflexivity|].
  intros H. apply andb_prop in H. destruct H as [Hc Hs].
  rewrite (IH Hs). destruct s; [|reflexivity].
  now rewrite (decimal_not_space c Hc).
Qed.

Lemma drop_underscores_decimal s b :
  PyStr.all_chars PyStr.is_decimal s = true -> PyStr.drop_underscores b s = Some s.
Proof.
  revert b. induction s as [|c s IH]; simpl; intros b H; [reflexivity|].
  apply andb_prop in H. destruct H as [Hc Hs].
  rewrite (decimal_not_mark c 95 Hc) by lia.
  now rewrite (IH _ Hs).
Qed.

(** Within the limit on the digits, a non-empty run of decimal digits has
    a value. *)
Lemma digits_value_fits s :
  s <> EmptyString ->
  Z.of_nat (String.length s) <= PyStr.MAX_STR_DIGITS ->
  PyStr.digits_value s = option_map Z.of_uint (NilEmpty.uint_of_string s).
Proof.
  intros Hs Hlen. unfold PyStr.digits_value.
  destruct s as [|c s]; [congruence|].
  destruct (Z.gtb_spec (Z.of_nat (String.length (String c s))) PyStr.MAX_STR_DIGITS);
    [lia | reflexivity].
Qed.

(** [int] reads a non-empty run of decimal digits, of [MAX_STR_DIGITS]
    digits at most, as its value. *)
Lemma int_decimal s :
  s <> EmptyString ->
  PyStr.all_chars PyStr.is_decimal s = true ->
  Z.of_nat (String.length s) <= PyStr.MAX_STR_DIGITS ->
  PyStr.int s = option_map Z.of_uint (NilEmpty.uint_of_string s).
Proof.
  intros Hs Hdec Hlen. unfold PyStr.int, PyStr.strip.
  destruct s as [|c s]; [congruence|].
  assert (Hc : PyStr.is_decimal c = true)
    by (simpl in Hdec; now apply andb_prop in Hdec).
  simpl PyStr.lstrip. rewrite (decimal_not_space c Hc).
  rewrite (rstrip_decimal _ Hdec).
  rewrite (decimal_not_mark c 45 Hc), (decimal_not_mark c 43 Hc) by lia.
  rewrite (drop_underscores_decimal _ false Hdec).
  rewrite (digits_value_fits _ Hs Hlen).
  now destruct (NilEmpty.uint_of_string (String c s)).
Qed.

Lemma int_digits d :
  d <> Decimal.Nil ->
  Z.of_nat (String.length (NilEmpty.string_of_uint d)) <= PyStr.MAX_STR_DIGITS ->
  PyStr.int (NilEmpty.string_of_uint d) = Some (Z.of_uint d).
Proof.
  intros Hd Hlen.
  rewrite int_decimal; [now rewrite NilEmpty.usu | | apply string_of_uint_decimal
                       | assumption].
  destruct d; simpl; congruence.
Qed.

(** A run of decimal digits is the writing of a number. *)
Lemma uint_of_string_decimal s :
  PyStr.all_chars PyStr.is_decimal s = true ->
  exists d, NilEmpty.uint_of_string s = Some d.
Proof.
  induction s as [|c s IH]; simpl; intros H; [eauto|].
  apply andb_prop in H. destruct H as [Hc Hs].
  destruct (IH Hs) as [d ->].
  destruct c as [[] [] [] [] [] [] [] []]; vm_compute in Hc; try discriminate;
    eexists; reflexivity.
Qed.

Lemma string_of_uint_pos p :
  NilZero.string_of_uint (Pos.to_uint p) = NilEmpty.string_of_uint (Pos.to_uint p).
Proof.
  pose proof (DecimalPos.Unsigned.to_uint_nonnil p) as Hp.
  unfold NilZero.string_of_uint. destruct (Pos.to_uint p); congruence.
Qed.

Lemma of_uint_to_uint p : Z.of_uint (Pos.to_uint p) = Z.pos p.
Proof.
  change (Z.of_uint (Pos.to_uint p)) with (Z.of_int (Z.to_int (Z.pos p))).
  apply DecimalZ.of_to.
Qed.

(** [int(str(y)) == y] for every integer that [str] accepts. *)
Lemma int_str y : PyStr.str_fits y = true -> PyStr.int (PyStr.str y) = Some y.
Proof.
  unfold PyStr.str_fits, PyStr.str. intros Hfit. apply Z.leb_le in Hfit.
  destruct y as [|p|p]; [reflexivity| |]; simpl in *;
    rewrite string_of_uint_pos in *;
    pose proof (DecimalPos.Unsigned.to_uint_nonnil p) as Hp.
  - now rewrite (int_digits _ Hp Hfit), of_uint_to_uint.
  - pose proof (string_of_uint_decimal (Pos.to_uint p)) as Hdec.
    destruct (NilEmpty.string_of_uint (Pos.to_uint p)) as [|c s] eqn:E.
    + destruct (Pos.to_uint p); simpl in E; congruence.
    + unfold PyStr.int, PyStr.strip. simpl PyStr.lstrip.
      change (PyStr.rstrip (String "-" (String c s)))
        with (match PyStr.rstrip (String c s) with
              | EmptyString => String "-" EmptyString
              | r => String "-" r
              end).
      rewrite (rstrip_decimal _ Hdec). cbv beta iota.
      change (PyStr.code "-" =? 45)%N with true. cbv beta iota.
      rewrite (drop_underscores_decimal (String c s) false Hdec).
      rewrite (digits_value_fits (String c s)) by (congruence || assumption).
      rewrite <- E, NilEmpty.usu. simpl.
      now rewrite of_uint_to_uint.
Qed.

(** A short [str(y)] is one that [str] accepts. *)
Lemma str_short_fits y :
  Z.of_nat (String.length (PyStr.str y)) <= PyStr.MAX_STR_DIGITS ->
  PyStr.str_fits y = true.
Proof.
  unfold PyStr.str_fits, PyStr.str. intros H. apply Z.leb_le.
  destruct y as [|p|p]; simpl in *; lia.
Qed.

Lemma substring_length_le n m s : (String.length (substring n m s) <= m)%nat.
Proof.
  revert n m. induction s as [|c s IH]; intros n m.
  - destruct n, m; simpl; lia.
  - destruct n as [|n].
    + destruct m as [|m]; simpl; [lia|]. specialize (IH 0%nat m). lia.
    + simpl. apply IH.
Qed.

Lemma last4_length s : (String.length (PyStr.last4 s) <= 4)%nat.
Proof. apply substring_length_le. Qed.

(* ================================================================== *)
(** * Properties of the song extraction *)

Lemma extract_set_songs_spec entries songs :
  forallb entry_ok entries = true ->
  extract_set_songs entries songs
  = Ok (songs ++ flat_map spec_entry_title entries).
Proof.
  revert songs. induction entries as [|song rest IH]; simpl; intros songs H.
  - now rewrite app_nil_r.
  - apply andb_prop in H. destruct H as [Hs Hrest].
    destruct song as [| | | | |d]; try discriminate. simpl.
    destruct (Py.lookup "name" d) as [name|]; simpl.
    + destruct (Py.truthy name); simpl.
      * destruct (Py.lookup "tape" d) as [tape|]; simpl.
        -- destruct (Py.truthy tape); simpl; rewrite (IH _ Hrest);
             [reflexivity | now rewrite <- app_assoc].
        -- rewrite (IH _ Hrest). now rewrite <- app_assoc.
      * now rewrite (IH _ Hrest).
    + now rewrite (IH _ Hrest).
Qed.

Lemma extract_sets_spec groups songs :
  forallb group_ok groups = true ->
  extract_sets groups songs = Ok (songs ++ flat_map spec_group_titles groups).
Proof.
  revert songs. induction groups as [|g rest IH]; simpl; intros songs H.
  - now rewrite app_nil_r.
  - apply andb_prop in H. destruct H as [Hg Hrest].
    destruct g as [| | | | |d]; try discriminate.
    + simpl. now rewrite (IH _ Hrest).
    + destruct d as [|kv d'].
      * simpl. now rewrite (IH _ Hrest).
      * remember (kv :: d') as d eqn:Ed.
        replace (Py.truthy (JDict d)) with true by (subst d; reflexivity).
        simpl. simpl in Hg.
        destruct (Py.lookup "song" d) as [[| | | |entries|]|];
          try discriminate; simpl.
        -- rewrite (extract_set_songs_spec _ _ Hg). simpl.
           rewrite (IH _ Hrest). now rewrite <- app_assoc.
        -- now rewrite (IH _ Hrest).
Qed.

(** On a record of the expected shape the extraction returns. *)
Lemma extract_songs_returns setlist :
  setlist_ok setlist = true ->
  exists titles, _extract_songs_from_setlist setlist = Ok titles.
Proof.
  unfold _extract_songs_from_setlist, setlist_ok.
  destruct setlist as [| | | | |d]; try discriminate. simpl.
  destruct (Py.lookup "sets" d) as [[| | | | |sd]|]; try discriminate;
    [|simpl; eauto].
  simpl.
  destruct (Py.lookup "set" sd) as [[| | | |groups|g]|]; try discriminate;
    try (simpl; eauto; fail); intros H.
  - simpl. rewrite (extract_sets_spec groups [] H). eauto.
  - unfold normalize_sets. destruct g as [|kv g'].
    + simpl. eauto.
    + remember (kv :: g') as g eqn:Eg.
      replace (Py.truthy (JDict g)) with true by (subst g; reflexivity).
      rewrite (extract_sets_spec [JDict g] []); [eauto|]. simpl. now rewrite H.
Qed.

(** C8, as stated, fails: a setlist whose [sets] field is null makes the
    extraction raise, [None] having no [get]. *)
Lemma extract_null_sets_raises :
  _extract_songs_from_setlist (JDict [("sets", JNull)]) = Raise AttributeError.
Proof. reflexivity. Qed.

(** C8, amended: on every setlist record of the expected shape the
    extraction returns, without raising, the names of the entries that have
    a name and no tape flag, in order; an absent key at any level gives an
    empty result, a single set group and a sequence of groups are read
    alike, and null groups are skipped. *)
Theorem extract_songs_well_shaped (setlist : json) :
  setlist_ok setlist = true ->
  _extract_songs_from_setlist setlist = Ok (spec_titles setlist).
Proof.
  unfold _extract_songs_from_setlist, spec_titles, setlist_ok, spec_groups.
  destruct setlist as [| | | | |d]; try discriminate. simpl.
  destruct (Py.lookup "sets" d) as [[| | | | |sd]|]; try discriminate;
    [|reflexivity].
  simpl.
  destruct (Py.lookup "set" sd) as [[| | | |groups|g]|]; try discriminate;
    try reflexivity; intros H.
  - simpl. now rewrite (extract_sets_spec groups [] H).
  - unfold normalize_sets. destruct g as [|kv g'].
    + reflexivity.
    + remember (kv :: g') as g eqn:Eg.
      replace (Py.truthy (JDict g)) with true by (subst g; reflexivity).
      apply (extract_sets_spec [JDict g] []). simpl. now rewrite H.
Qed.

Lemma extract_songs_well_shaped_witness :
  _extract_songs_from_setlist
    (JDict [("sets", JDict [("set", JDict [("song",
       JList [JDict [("name", JStr "Intro"); ("tape", JBool true)];
              JDict [("info", JStr "no name")];
              JDict [("name", JStr "Song 1")]])])])])
  = Ok [JStr "Song 1"].
Proof.
  apply (extract_songs_well_shaped
           (JDict [("sets", JDict [("set", JDict [("song",
              JList [JDict [("name", JStr "Intro"); ("tape", JBool true)];
                     JDict [("info", JStr "no name")];
                     JDict [("name", JStr "Song 1")]])])])])).
  reflexivity.
Defined.

(* ================================================================== *)
(** * Properties of [make_request] *)

Section MakeRequestFacts.
Variable response_bool : Response -> bool.
Variable net : Network.
Variable req : Request.

Lemma error_status_429 r : status_code r = 429 -> is_error_status r = true.
Proof. unfold is_error_status. intros ->. reflexivity. Qed.

(** The lengths that [time.sleep] accepts. *)
Lemma sleep_error_none d : sleep_error d = None <-> 0 <= d <= SLEEP_SAFE.
Proof.
  unfold sleep_error.
  destruct (Z.ltb_spec d (- SLEEP_MAX)) as [H1|H1],
    (Z.ltb_spec SLEEP_MAX d) as [H2|H2], (Z.ltb_spec d 0) as [H3|H3],
    (Z.ltb_spec SLEEP_SAFE d) as [H4|H4];
    unfold SLEEP_MAX, SLEEP_SAFE in *; simpl; split; intros H;
    try discriminate; try reflexivity; lia.
Qed.

(** One turn of the loop, with the trace written out. *)
Lemma make_request_loop_step remaining retry_after t :
  make_request_loop response_bool net req (S remaining) retry_after t
  = let t1 := t ++ [Get req] in
    let handler e :=
      if should_reraise response_bool e
      then (Raise (RequestError e), t1)
      else if MAX_RETRIES - Z.of_nat (S remaining) >=? MAX_RETRIES - 1
           then (Raise (RuntimeError_after_retries e), t1)
           else make_request_loop response_bool net req remaining
                  retry_after t1 in
    match net (List.length (gets t)) req with
    | Returns r =>
        if status_code r =? 429 then
          match rate_limit_delay r retry_after with
          | Some d =>
              match sleep_error d with
              | Some e => (Raise e, t1)
              | None => make_request_loop response_bool net req remaining d
                          (t1 ++ [Sleep d])
              end
          | None => (Raise ValueError, t1)
          end
        else if is_error_status r then handler (HTTPError r)
        else (Ok r, t1 ++ [Sleep RATE_LIMIT_DELAY])
    | Fails e => handler e
    end.
Proof.
  cbn [make_request_loop bind requests_get]. cbv zeta.
  unfold rate_limit_delay.
  destruct (net (List.length (gets t)) req) as [r|e].
  - destruct (status_code r =? 429).
    + destruct (retry_after_header r) as [h|].
      * destruct (PyStr.int h) as [d|]; [|reflexivity].
        unfold bind, sleep. destruct (sleep_error d); reflexivity.
      * unfold bind, sleep. destruct (sleep_error (retry_after * 2));
          reflexivity.
    + destruct (is_error_status r); [|reflexivity].
      destruct (should_reraise response_bool (HTTPError r)); [reflexivity|].
      destruct (_ >=? _); reflexivity.
  - destruct (should_reraise response_bool e); [reflexivity|].
    destruct (_ >=? _); reflexivity.
Qed.

(** A 429 response: sleep for the delay, then the next attempt with the
    delay as the new backoff. *)
Lemma make_request_loop_429 remaining retry_after t r d :
  net (List.length (gets t)) req = Returns r ->
  status_code r = 429 ->
  rate_limit_delay r retry_after = Some d ->
  0 <= d <= SLEEP_SAFE ->
  make_request_loop response_bool net req (S remaining) retry_after t
  = make_request_loop response_bool net req remaining d
      (t ++ [Get req; Sleep d]).
Proof.
  intros Hnet Hst Hd Hpos.
  rewrite make_request_loop_step. cbv zeta. rewrite Hnet, Hst, Hd.
  rewrite (proj2 (sleep_error_none d) Hpos). simpl Z.eqb. cbv iota.
  now rewrite <- app_assoc.
Qed.

(** A 429 response with a delay that cannot be slept: the error of
    [int] or of [time.sleep] ends the loop on the spot. *)
Lemma make_request_loop_429_error remaining retry_after t r :
  net (List.length (gets t)) req = Returns r ->
  status_code r = 429 ->
  make_request_loop response_bool net req (S remaining) retry_after t
  = match rate_limit_delay r retry_after with
    | None => (Raise ValueError, t ++ [Get req])
    | Some d =>
        match sleep_error d with
        | Some e => (Raise e, t ++ [Get req])
        | None => make_request_loop response_bool net req remaining d
                    (t ++ [Get req; Sleep d])
        end
    end.
Proof.
  intros Hnet Hst.
  rewrite make_request_loop_step. cbv zeta. rewrite Hnet, Hst.
  simpl Z.eqb. cbv iota.
  destruct (rate_limit_delay r retry_after) as [d|]; [|reflexivity].
  destruct (sleep_error d); [reflexivity|]. now rewrite <- app_assoc.
Qed.

(** A response that is not an error: sleep for the base delay and return
    it. *)
Lemma make_request_loop_success remaining retry_after t r :
  net (List.length (gets t)) req = Returns r ->
  is_error_status r = false ->
  make_request_loop response_bool net req (S remaining) retry_after t
  = (Ok r, t ++ [Get req; Sleep RATE_LIMIT_DELAY]).
Proof.
  intros Hnet Hok.
  rewrite make_request_loop_step. cbv zeta. rewrite Hnet.
  destruct (Z.eqb_spec (status_code r) 429) as [E|_].
  - now rewrite (error_status_429 r E) in Hok.
  - rewrite Hok. now rewrite <- app_assoc.
Qed.

(** An HTTP error status other than 429: the handler of the exception
    decides on the truth value of the response. *)
Lemma make_request_loop_http_error remaining retry_after t r :
  net (List.length (gets t)) req = Returns r ->
  is_error_status r = true ->
  status_code r <> 429 ->
  make_request_loop response_bool net req (S remaining) retry_after t
  = if response_bool r then (Raise (RequestError (HTTPError r)), t ++ [Get req])
    else if MAX_RETRIES - Z.of_nat (S remaining) >=? MAX_RETRIES - 1
         then (Raise (RuntimeError_after_retries (HTTPError r)), t ++ [Get req])
         else make_request_loop response_bool net req remaining retry_after
                (t ++ [Get req]).
Proof.
  intros Hnet Herr Hst.
  rewrite make_request_loop_step. cbv zeta. rewrite Hnet.
  unfold should_reraise. cbn [exc_response].
  rewrite !(proj2 (Z.eqb_neq (status_code r) 429) Hst), Herr.
  destruct (response_bool r); reflexivity.
Qed.

(** Whatever [make_request_loop] returns has no error status: a response
    with the status 404 never reaches the caller. *)
Lemma make_request_loop_returns_ok remaining retry_after t r t' :
  make_request_loop response_bool net req remaining retry_after t = (Ok r, t') ->
  is_error_status r = false.
Proof.
  revert retry_after t.
  induction remaining as [|remaining IH]; intros retry_after t; [discriminate|].
  rewrite make_request_loop_step. cbv zeta.
  destruct (net (List.length (gets t)) req) as [r0|e].
  - destruct (status_code r0 =? 429).
    + destruct (rate_limit_delay r0 retry_after) as [d|]; [|discriminate].
      destruct (sleep_error d); [discriminate | apply IH].
    + destruct (is_error_status r0) eqn:E.
      * destruct (should_reraise response_bool (HTTPError r0)); [discriminate|].
        destruct (_ >=? _); [discriminate | apply IH].
      * intros H. inversion H; subst. exact E.
  - destruct (should_reraise response_bool e); [discriminate|].
    destruct (_ >=? _); [discriminate | apply IH].
Qed.

(** The trace only grows, and what is added are GETs of [req] and
    sleeps. *)
Lemma make_request_loop_trace remaining retry_after t res t' :
  make_request_loop response_bool net req remaining retry_after t = (res, t') ->
  exists evs, t' = t ++ evs
              /\ forall req', In (Get req') evs -> req' = req.
Proof.
  revert retry_after t.
  induction remaining as [|remaining IH]; intros retry_after t.
  - intros H. inversion H; subst. exists []. rewrite app_nil_r.
    split; [reflexivity | intros ? []].
  - assert (Hext : forall ra (evs0 : list event),
               (forall req', In (Get req') evs0 -> req' = req) ->
               make_request_loop response_bool net req remaining ra
                 ((t ++ [Get req]) ++ evs0) = (res, t') ->
               exists evs, t' = t ++ evs
                           /\ forall req', In (Get req') evs -> req' = req).
    { intros ra evs0 Hevs0 H. apply IH in H.
      destruct H as (evs & -> & Hevs).
      exists ([Get req] ++ evs0 ++ evs). rewrite <- !app_assoc.
      split; [reflexivity|].
      intros req' Hin. simpl in Hin. destruct Hin as [Heq|Hin];
        [now inversion Heq|].
      apply in_app_or in Hin. destruct Hin; auto. }
    assert (Hstop : forall res0 (evs0 : list event),
               (forall req', In (Get req') evs0 -> req' = req) ->
               (res0, (t ++ [Get req]) ++ evs0) = (res, t') ->
               exists evs, t' = t ++ evs
                           /\ forall req', In (Get req') evs -> req' = req).
    { intros res0 evs0 Hevs0 H. inversion H; subst.
      exists ([Get req] ++ evs0).
      rewrite <- app_assoc. split; [reflexivity|].
      intros req' Hin. simpl in Hin. destruct Hin as [Heq|Hin];
        [now inversion Heq | auto]. }
    assert (Hnil : forall req', In (Get req') (@nil event) -> req' = req)
      by (intros ? []).
    assert (Hsl : forall d req', In (Get req') [Sleep d] -> req' = req)
      by (intros ? ? [Heq|[]]; discriminate).
    assert (Hstop0 : forall res0,
               (res0, t ++ [Get req]) = (res, t') ->
               exists evs, t' = t ++ evs
                           /\ forall req', In (Get req') evs -> req' = req).
    { intros res0 H. apply (Hstop res0 [] Hnil). now rewrite app_nil_r. }
    assert (Hext0 : forall ra,
               make_request_loop response_bool net req remaining ra
                 (t ++ [Get req]) = (res, t') ->
               exists evs, t' = t ++ evs
                           /\ forall req', In (Get req') evs -> req' = req).
    { intros ra H. apply (Hext ra [] Hnil). now rewrite app_nil_r. }
    rewrite make_request_loop_step. cbv zeta.
    destruct (net (List.length (gets t)) req) as [r0|e].
    + destruct (status_code r0 =? 429).
      * destruct (rate_limit_delay r0 retry_after) as [d|]; [|apply Hstop0].
        destruct (sleep_error d);
          [apply Hstop0 | apply (Hext d [Sleep d] (Hsl d))].
      * destruct (is_error_status r0).
        -- destruct (should_reraise response_bool (HTTPError r0));
             [apply Hstop0|].
           destruct (_ >=? _); [apply Hstop0 | apply Hext0].
        -- apply (Hstop (Ok r0) [Sleep RATE_LIMIT_DELAY] (Hsl _)).
    + destruct (should_reraise response_bool e); [apply Hstop0|].
      destruct (_ >=? _); [apply Hstop0 | apply Hext0].
Qed.
End MakeRequestFacts.

(** With the truth value that the requests library gives a response, an
    HTTP error status that every attempt meets is retried without a sleep
    until the attempts are used up, and then wrapped in a [RuntimeError]. *)
Lemma make_request_http_error_retried net url params timeout r :
  (forall k, net k (mkRequest url params timeout) = Returns r) ->
  is_error_status r = true ->
  status_code r <> 429 ->
  make_request Response_bool net url params timeout []
  = (Raise (RuntimeError_after_retries (HTTPError r)),
     [Get (mkRequest url params timeout);
      Get (mkRequest url params timeout);
      Get (mkRequest url params timeout)]).
Proof.
  intros Hnet Herr Hst. unfold make_request.
  change (Z.to_nat MAX_RETRIES) with 3%nat.
  assert (Hb : Response_bool r = false) by (unfold Response_bool; now rewrite Herr).
  rewrite (make_request_loop_http_error Response_bool net _ _ _ _ r)
    by (try apply Hnet; assumption).
  rewrite Hb. cbv iota. change (_ >=? _) with false. cbv iota.
  rewrite (make_request_loop_http_error Response_bool net _ _ _ _ r)
    by (try apply Hnet; assumption).
  rewrite Hb. cbv iota. change (_ >=? _) with false. cbv iota.
  rewrite (make_request_loop_http_error Response_bool net _ _ _ _ r)
    by (try apply Hnet; assumption).
  rewrite Hb. reflexivity.
Qed.

(** With a response object that is always true, as the mocks of the test
    suite are, the same error is raised again at once. *)
Lemma make_request_http_error_mock net url params timeout r :
  net 0%nat (mkRequest url params timeout) = Returns r ->
  is_error_status r = true ->
  status_code r <> 429 ->
  make_request Mock_bool net url params timeout []
  = (Raise (RequestError (HTTPError r)), [Get (mkRequest url params timeout)]).
Proof.
  intros Hnet Herr Hst. unfold make_request.
  change (Z.to_nat MAX_RETRIES) with 3%nat.
  rewrite (make_request_loop_http_error Mock_bool net _ _ _ _ r)
    by assumption.
  reflexivity.
Qed.

(** C1 evaluated on the code: a response with the status 500, met on every
    attempt, is requested three times, with no sleep in between, and the
    caller gets a [RuntimeError], not the HTTP error. *)
Theorem make_request_server_error_evaluated :
  make_request Response_bool (scripted [] (Returns (status_response 500)))
    "https://test.url" [] 20 []
  = (Raise (RuntimeError_after_retries (HTTPError (status_response 500))),
     [Get test_request; Get test_request; Get test_request]).
Proof. reflexivity. Qed.

(** C5, as stated, fails: when every attempt meets 429 the error raised
    after the loop wraps no cause. *)
Lemma make_request_exhausted_wraps_no_cause :
  fst (make_request Response_bool
         (scripted [] (Returns (rate_limited (Some "1"))))
         "https://test.url" [] 20 [])
  = Raise RuntimeError_max_retries
  /\ ~ (exists cause,
          fst (make_request Response_bool
                 (scripted [] (Returns (rate_limited (Some "1"))))
                 "https://test.url" [] 20 [])
          = Raise (RuntimeError_after_retries cause)).
Proof.
  split; [reflexivity|]. intros [cause H]. vm_compute in H. discriminate.
Qed.

(** C5, amended: on a 429 response the delay is the integer that [int]
    reads in the Retry-After header, or twice the current backoff when
    there is no header.  When the delay is one that [time.sleep] sleeps,
    from 0 to [SLEEP_SAFE] seconds, [make_request] sleeps for it and tries
    again, three attempts in all; a 429 followed by a success returns the
    successful response after the two sleeps; a 429 on each of the three
    attempts raises the [RuntimeError] with the fixed message, which
    carries no cause. *)
Theorem make_request_rate_limited response_bool net url params timeout r1 d1 :
  let req := mkRequest url params timeout in
  net 0%nat req = Returns r1 ->
  status_code r1 = 429 ->
  rate_limit_delay r1 RATE_LIMIT_DELAY = Some d1 ->
  0 <= d1 <= SLEEP_SAFE ->
  (forall r2,
      net 1%nat req = Returns r2 ->
      is_error_status r2 = false ->
      make_request response_bool net url params timeout []
      = (Ok r2, [Get req; Sleep d1; Get req; Sleep RATE_LIMIT_DELAY]))
  /\ (forall r2 d2 r3 d3,
         net 1%nat req = Returns r2 -> status_code r2 = 429 ->
         rate_limit_delay r2 d1 = Some d2 -> 0 <= d2 <= SLEEP_SAFE ->
         net 2%nat req = Returns r3 -> status_code r3 = 429 ->
         rate_limit_delay r3 d2 = Some d3 -> 0 <= d3 <= SLEEP_SAFE ->
         make_request response_bool net url params timeout []
         = (Raise RuntimeError_max_retries,
            [Get req; Sleep d1; Get req; Sleep d2; Get req; Sleep d3])).
Proof.
  intros req H1 S1 D1 P1. unfold make_request. fold req.
  change (Z.to_nat MAX_RETRIES) with 3%nat.
  rewrite (make_request_loop_429 response_bool net req 2 RATE_LIMIT_DELAY [] r1 d1)
    by assumption.
  split.
  - intros r2 H2 Hok.
    now rewrite (make_request_loop_success response_bool net req 1 d1 _ r2).
  - intros r2 d2 r3 d3 H2 S2 D2 P2 H3 S3 D3 P3.
    rewrite (make_request_loop_429 response_bool net req 1 d1 _ r2 d2)
      by assumption.
    rewrite (make_request_loop_429 response_bool net req 0 d2 _ r3 d3)
      by assumption.
    reflexivity.
Qed.

Lemma make_request_rate_limited_witness :
  make_request Response_bool
    (scripted [Returns (rate_limited (Some "2"))] (Returns success_response))
    "https://test.url" [] 20 []
  = (Ok success_response,
     [Get test_request; Sleep 2; Get test_request; Sleep RATE_LIMIT_DELAY]).
Proof.
  apply (proj1 (make_request_rate_limited Response_bool
                  (scripted [Returns (rate_limited (Some "2"))]
                     (Returns success_response))
                  "https://test.url" [] 20 (rate_limited (Some "2")) 2
                  eq_refl eq_refl eq_refl ltac:(unfold SLEEP_SAFE; lia))
           success_response eq_refl eq_refl).
Defined.

(* ================================================================== *)
(** * Properties of [fetch_setlists_for_year] *)

Section FetchFacts.
Variable response_bool : Response -> bool.
Variable net : Network.
Variable mbid : string.
Variable year : Z.

(** One turn of the page loop, with the trace written out. *)
Lemma fetch_pages_step pages_left page_num songs t :
  fetch_pages response_bool net mbid year (S pages_left) page_num songs t
  = match make_request response_bool net (setlists_url mbid)
            [("p", page_num)] 30 t with
    | (Raise e, t') => (Raise e, t')
    | (Ok r, t') =>
        match process_page year page_num r songs with
        | Raise e => (Raise e, t')
        | Ok (Break songs') => (Ok songs', t')
        | Ok (Continue songs') =>
            fetch_pages response_bool net mbid year pages_left
              (page_num + 1) songs' t'
        end
    end.
Proof.
  cbn [fetch_pages]. unfold bind at 1.
  destruct (make_request _ _ _ _ _ t) as [[r|e] t']; [|reflexivity].
  unfold bind, lift.
  destruct (process_page year page_num r songs) as [[s|s]|e]; reflexivity.
Qed.

(** Once set, [older_than_year] stays set, and an older entry sets it. *)
Lemma scan_setlists_flag entries songs older res flag :
  scan_setlists year entries songs older = Ok (res, flag) ->
  older = true \/ Exists (older_entry year) entries ->
  flag = true.
Proof.
  revert songs older.
  induction entries as [|entry rest IH]; intros songs older Hscan Hold.
  - simpl in Hscan. inversion Hscan; subst.
    destruct Hold as [H|H]; [assumption | inversion H].
  - assert (Hcases : older = true \/ older_entry year entry
                     \/ Exists (older_entry year) rest).
    { destruct Hold as [H|H]; [now left|]. inversion H; subst; auto. }
    clear Hold. cbn [scan_setlists] in Hscan. unfold rbind in Hscan.
    destruct (Py.get entry "eventDate" (JStr EmptyString)) as [event_date|] eqn:Eget;
      [|discriminate].
    destruct (Py.len event_date) as [n|] eqn:Elen; [|discriminate].
    destruct (n >=? 10) eqn:En.
    + destruct event_date as [| | |s| |]; try discriminate.
      destruct (String.eqb (PyStr.last4 s) (PyStr.str year)) eqn:Eeq.
      * destruct (_extract_songs_from_setlist entry); [|discriminate].
        apply (IH _ _ Hscan).
        destruct Hcases as [H|[H|H]]; auto.
        exfalso. destruct H as (s' & y & Hg & _ & _ & Hint & Hlt).
        rewrite Hg in Eget. inversion Eget; subst s'.
        apply String.eqb_eq in Eeq.
        assert (Hfit : PyStr.str_fits year = true).
        { apply str_short_fits. rewrite <- Eeq.
          pose proof (last4_length s). unfold PyStr.MAX_STR_DIGITS. lia. }
        rewrite Eeq, (int_str _ Hfit) in Hint.
        inversion Hint. lia.
      * destruct (PyStr.isdigit (PyStr.last4 s)) eqn:Edig.
        -- destruct (PyStr.int (PyStr.last4 s)) as [y|] eqn:Eint;
             [|discriminate].
           apply (IH _ _ Hscan).
           destruct Hcases as [H|[H|H]]; auto.
           ++ left. rewrite H. now destruct (y <? year).
           ++ left. destruct H as (s' & y' & Hg & _ & _ & Hint & Hlt).
              rewrite Hg in Eget. inversion Eget; subst s'.
              rewrite Hint in Eint. inversion Eint; subst y'.
              now destruct (Z.ltb_spec y year); [|lia].
        -- apply (IH _ _ Hscan).
           destruct Hcases as [H|[H|H]]; auto.
           exfalso. destruct H as (s' & y & Hg & _ & Hd & _).
           rewrite Hg in Eget. inversion Eget; subst s'. congruence.
    + apply (IH _ _ Hscan).
      destruct Hcases as [H|[H|H]]; auto.
      exfalso. destruct H as (s' & y & Hg & Hlen & _).
      rewrite Hg in Eget. inversion Eget; subst event_date.
      simpl in Elen. inversion Elen; subst n.
      destruct (Z.geb_spec (PyStr.len s') 10); [discriminate | lia].
Qed.

(** The scan goes through the whole page: what it returns are the songs
    held before and those of every entry of the target year. *)
Lemma scan_setlists_collects entries songs older res flag :
  scan_setlists year entries songs older = Ok (res, flag) ->
  res = songs ++ page_songs year entries.
Proof.
  revert songs older.
  induction entries as [|entry rest IH]; intros songs older Hscan.
  - simpl in Hscan. inversion Hscan; subst. simpl. now rewrite app_nil_r.
  - cbn [scan_setlists] in Hscan. unfold rbind in Hscan.
    unfold page_songs. cbn [flat_map]. fold (page_songs year rest).
    unfold year_matches.
    destruct (Py.get entry "eventDate" (JStr EmptyString)) as [event_date|];
      [|discriminate].
    destruct (Py.len event_date) as [n|] eqn:Elen; [|discriminate].
    destruct (n >=? 10) eqn:En.
    + destruct event_date as [| | |s| |]; try discriminate.
      simpl in Elen. inversion Elen; subst n.
      replace (10 <=? PyStr.len s) with true
        by (symmetry; apply Z.leb_le; apply Z.geb_le in En; lia).
      simpl andb.
      destruct (String.eqb (PyStr.last4 s) (PyStr.str year)).
      * destruct (_extract_songs_from_setlist entry) as [titles|]; [|discriminate].
        rewrite (IH _ _ Hscan). now rewrite app_assoc.
      * destruct (PyStr.isdigit (PyStr.last4 s)).
        -- destruct (PyStr.int (PyStr.last4 s)); [|discriminate].
           now rewrite (IH _ _ Hscan).
        -- now rewrite (IH _ _ Hscan).
    + rewrite (IH _ _ Hscan).
      destruct event_date as [| | |s| |]; try reflexivity.
      simpl in Elen. inversion Elen; subst n.
      replace (10 <=? PyStr.len s) with false; [reflexivity|].
      symmetry. apply Z.leb_gt.
      destruct (Z.geb_spec (PyStr.len s) 10); [discriminate | lia].
Qed.

(** A page of catalog records is scanned to the end. *)
Lemma scan_setlists_total entries songs older :
  Forall (fun entry => catalog_entry entry = true) entries ->
  exists res flag, scan_setlists year entries songs older = Ok (res, flag).
Proof.
  revert songs older.
  induction entries as [|entry rest IH]; intros songs older Hok.
  - simpl. eauto.
  - inversion Hok as [|x l Hentry Hrest]; subst.
    unfold catalog_entry in Hentry. apply andb_prop in Hentry.
    destruct Hentry as [Hsl Hdate].
    cbn [scan_setlists]. unfold rbind.
    destruct (Py.get entry "eventDate" (JStr EmptyString)) as [[| | |s| |]|];
      try discriminate.
    cbn [Py.len].
    destruct (PyStr.len s >=? 10); [|now apply IH].
    destruct (String.eqb (PyStr.last4 s) (PyStr.str year)).
    + destruct (extract_songs_returns _ Hsl) as [titles ->]. now apply IH.
    + destruct (PyStr.isdigit (PyStr.last4 s)) eqn:Edig; [|now apply IH].
      assert (Hint : exists y, PyStr.int (PyStr.last4 s) = Some y).
      { destruct (uint_of_string_decimal _ Hdate) as [d Hd].
        exists (Z.of_uint d). rewrite int_decimal, Hd; try assumption.
        - reflexivity.
        - intros E. rewrite E in Edig. discriminate.
        - pose proof (last4_length s). unfold PyStr.MAX_STR_DIGITS. lia. }
      destruct Hint as [y ->]. now apply IH.
Qed.

(** A value that is iterated over one item at least counts as true. *)
Lemma iter_truthy v entries :
  Py.iter v = Ok entries -> entries <> [] -> Py.truthy v = true.
Proof.
  destruct v as [|b|z|s|l|d]; simpl; try discriminate; intros H Hne.
  - destruct s; [inversion H; congruence | reflexivity].
  - destruct l; [inversion H; congruence | reflexivity].
  - destruct d; [inversion H; congruence | reflexivity].
Qed.

(** What the page loop does with a page that holds an older entry. *)
Lemma process_page_older_result page_num r songs data setlists entries :
  status_code r <> 404 ->
  body r = Some data ->
  Py.get data "setlist" (JList []) = Ok setlists ->
  Py.iter setlists = Ok entries ->
  Exists (older_entry year) entries ->
  process_page year page_num r songs
  = match scan_setlists year entries songs false with
    | Ok (songs', _) => Ok (Break songs')
    | Raise e => Raise e
    end.
Proof.
  intros Hst Hbody Hget Hiter Hold.
  unfold process_page, response_json, rbind.
  rewrite (proj2 (Z.eqb_neq _ _) Hst), Hbody, Hget.
  rewrite (iter_truthy _ _ Hiter)
    by (intros ->; inversion Hold).
  cbn [negb]. rewrite Hiter.
  destruct (scan_setlists year entries songs false) as [[res flag]|e] eqn:Escan;
    [|reflexivity].
  rewrite (scan_setlists_flag _ _ _ _ _ Escan) by now right.
  reflexivity.
Qed.

(** A last page never lets the loop go on. *)
Lemma process_page_last page_num r songs :
  page_is_last page_num r ->
  forall songs', process_page year page_num r songs <> Ok (Continue songs').
Proof.
  intros (data & total & ipp & x & y & Hbody & Htotal & Hipp & Hx & Hy & Hge).
  intros songs'. unfold process_page, response_json, rbind.
  destruct (status_code r =? 404); [discriminate|].
  rewrite Hbody.
  destruct (Py.get data "setlist" (JList [])) as [setlists|]; [|discriminate].
  destruct (negb (Py.truthy setlists)); [discriminate|].
  destruct (Py.iter setlists) as [entries|]; [|discriminate].
  destruct (scan_setlists year entries songs false) as [[res flag]|e];
    [|discriminate].
  destruct flag; [discriminate|].
  rewrite Htotal, Hipp.
  assert (Hmul : Py.mul_int page_num ipp = Ok (JInt (page_num * y))).
  { destruct ipp; simpl in Hy; try discriminate; simpl;
      inversion Hy; reflexivity. }
  rewrite Hmul. unfold Py.ge. cbn [Py.as_int]. rewrite Hx.
  destruct (Z.geb_spec (page_num * y) x); [discriminate | lia].
Qed.

Lemma fetch_pages_stops pages_left page_num songs t r t' :
  make_request response_bool net (setlists_url mbid) [("p", page_num)] 30 t
  = (Ok r, t') ->
  (forall songs', process_page year page_num r songs <> Ok (Continue songs')) ->
  exists res,
    fetch_pages response_bool net mbid year (S pages_left) page_num songs t
    = (res, t').
Proof.
  intros Hreq Hstop. rewrite fetch_pages_step, Hreq.
  destruct (process_page year page_num r songs) as [[s|s]|e]; eauto.
  now destruct (Hstop s).
Qed.

(** From any state the loop goes through, the rest of the loop gives the
    result of the whole call. *)
Lemma loop_at_run max_pages t0 pages_left page_num songs t :
  loop_at response_bool net mbid year max_pages t0 pages_left page_num songs t ->
  fetch_pages response_bool net mbid year pages_left page_num songs t
  = fetch_setlists_for_year response_bool net mbid year max_pages t0.
Proof.
  induction 1 as [Hfit|n p songs t r t' songs' Hloop IH Hreq Hproc].
  - unfold fetch_setlists_for_year. now rewrite Hfit.
  - rewrite <- IH, fetch_pages_step, Hreq, Hproc. reflexivity.
Qed.

(** What a call does is what its page loop does, or nothing at all. *)
Lemma fetch_setlists_for_year_cases max_pages t res t' :
  fetch_setlists_for_year response_bool net mbid year max_pages t = (res, t') ->
  fetch_pages response_bool net mbid year (Z.to_nat max_pages) 1 [] t = (res, t')
  \/ (exists e, res = Raise e) /\ t' = t.
Proof.
  unfold fetch_setlists_for_year.
  destruct (PyStr.str_fits year); [now left|].
  intros H. inversion H; subst. right. eauto.
Qed.

(** The pages asked for are the pages of the range. *)
Lemma fetch_pages_range pages_left page_num songs t res t' :
  fetch_pages response_bool net mbid year pages_left page_num songs t
  = (res, t') ->
  exists evs,
    t' = t ++ evs
    /\ forall req, In (Get req) evs ->
         exists q, params req = [("p", q)]
                   /\ page_num <= q < page_num + Z.of_nat pages_left.
Proof.
  revert page_num songs t.
  induction pages_left as [|n IH]; intros p songs t Hrun.
  - inversion Hrun; subst. exists []. rewrite app_nil_r.
    split; [reflexivity | intros ? []].
  - rewrite fetch_pages_step in Hrun.
    destruct (make_request _ _ _ _ _ t) as [res1 t1] eqn:Hreq.
    unfold make_request in Hreq.
    apply make_request_loop_trace in Hreq. destruct Hreq as (evs1 & -> & Hevs1).
    assert (Hhere : forall req, In (Get req) evs1 ->
              exists q, params req = [("p", q)]
                        /\ p <= q < p + Z.of_nat (S n)).
    { intros req Hin. rewrite (Hevs1 _ Hin). exists p. simpl params.
      split; [reflexivity | lia]. }
    assert (Hdone : forall res0, (res0, t ++ evs1) = (res, t') ->
              exists evs, t' = t ++ evs
                /\ forall req, In (Get req) evs ->
                     exists q, params req = [("p", q)]
                               /\ p <= q < p + Z.of_nat (S n)).
    { intros res0 H. inversion H; subst. eauto. }
    destruct res1 as [r|e]; [|now apply (Hdone (Raise e))].
    destruct (process_page year p r songs) as [[s|s]|e];
      [now apply (Hdone (Ok s)) | | now apply (Hdone (Raise e))].
    apply IH in Hrun. destruct Hrun as (evs2 & -> & Hevs2).
    exists (evs1 ++ evs2). rewrite app_assoc. split; [reflexivity|].
    intros req Hin. apply in_app_or in Hin. destruct Hin as [Hin|Hin]; auto.
    destruct (Hevs2 _ Hin) as (q & Hq & Hrange). exists q.
    split; [assumption | lia].
Qed.
End FetchFacts.

(* ------------------------------------------------------------------ *)
(** *** The claims about [fetch_setlists_for_year] *)

(** No response that [make_request] returns has the status 404, whatever
    truth value response objects have: the branch of the page loop that
    reads 404 as the end of the pages is never taken. *)
Lemma make_request_never_returns_404 response_bool net url params timeout t r t' :
  make_request response_bool net url params timeout t = (Ok r, t') ->
  status_code r <> 404.
Proof.
  intros H. apply make_request_loop_returns_ok in H.
  intros E. unfold is_error_status in H. rewrite E in H. discriminate.
Qed.

(** C2 evaluated on the code: page 1 gives two songs and announces more,
    page 2 is answered 404.  The call raises and the songs of page 1 are
    lost: with the truth value of the requests library after three GETs of
    page 2, with an always-true response object after one. *)
Theorem fetch_not_found_evaluated :
  fetch_setlists_for_year_default Response_bool page_then_404 "test-mbid" 2023 []
  = (Raise (RuntimeError_after_retries (HTTPError (status_response 404))),
     [Get (page_request "test-mbid" 1); Sleep 1;
      Get (page_request "test-mbid" 2); Get (page_request "test-mbid" 2);
      Get (page_request "test-mbid" 2)])
  /\ fetch_setlists_for_year_default Mock_bool page_then_404 "test-mbid" 2023 []
     = (Raise (RequestError (HTTPError (status_response 404))),
        [Get (page_request "test-mbid" 1); Sleep 1;
         Get (page_request "test-mbid" 2)]).
Proof. split; vm_compute; reflexivity. Qed.

(** C6, as stated, fails: the last four characters of an event date can
    read as a year below the target without the flag being set.  A date of
    fewer than ten characters is not looked at, and four characters that
    [int] reads but that are not all digits (a leading space) are not
    compared: in both runs the flag stays unset and the second page is
    requested. *)
Lemma fetch_goes_on_after_unread_date :
  (PyStr.int (PyStr.last4 "1-1-2022") = Some 2022
   /\ 2022 < 2023
   /\ scan_setlists 2023 [dated_setlist "1-1-2022"] [] false = Ok ([], false)
   /\ fetch_setlists_for_year Response_bool (pages_dated "1-1-2022")
        "test-mbid" 2023 50 []
      = (Ok [], [Get (page_request "test-mbid" 1); Sleep 1;
                 Get (page_request "test-mbid" 2); Sleep 1]))
  /\ (PyStr.int (PyStr.last4 "15-10- 999") = Some 999
      /\ 999 < 2023
      /\ scan_setlists 2023 [dated_setlist "15-10- 999"] [] false = Ok ([], false)
      /\ fetch_setlists_for_year Response_bool (pages_dated "15-10- 999")
           "test-mbid" 2023 50 []
         = (Ok [], [Get (page_request "test-mbid" 1); Sleep 1;
                    Get (page_request "test-mbid" 2); Sleep 1])).
Proof. repeat split; vm_compute; reflexivity. Qed.

(** C6, amended: take any state the page loop goes through, and let the
    page that [make_request] returns there hold an entry whose event date
    is a string of ten characters or more, the last four all digits that
    read as a year below the target ([older_entry]).  Then the scan of the
    page, when it returns, returns the flag set, after going through the
    whole page: the songs are those held before and those of every entry of
    the target year, the ones listed after the older entry included; the
    loop is left, and the call returns these songs with the trace as it is
    after that request: no further GET, whatever the page cap and the
    announced total are.  The scan raises only on a page that holds an
    entry that is no catalog record, and then the call raises the same
    error, again with no further GET. *)
Theorem fetch_stops_at_older_page
  response_bool net mbid year max_pages t0 pages_left page_num songs t r t'
  data setlists entries :
  loop_at response_bool net mbid year max_pages t0
    (S pages_left) page_num songs t ->
  make_request response_bool net (setlists_url mbid) [("p", page_num)] 30 t
  = (Ok r, t') ->
  body r = Some data ->
  Py.get data "setlist" (JList []) = Ok setlists ->
  Py.iter setlists = Ok entries ->
  Exists (older_entry year) entries ->
  match scan_setlists year entries songs false with
  | Ok (songs', older_than_year) =>
      older_than_year = true
      /\ songs' = songs ++ page_songs year entries
      /\ process_page year page_num r songs = Ok (Break songs')
      /\ fetch_setlists_for_year response_bool net mbid year max_pages t0
         = (Ok songs', t')
  | Raise e =>
      ~ Forall (fun entry => catalog_entry entry = true) entries
      /\ process_page year page_num r songs = Raise e
      /\ fetch_setlists_for_year response_bool net mbid year max_pages t0
         = (Raise e, t')
  end.
Proof.
  intros Hloop Hreq Hbody Hget Hiter Hold.
  pose proof (make_request_never_returns_404 _ _ _ _ _ _ _ _ Hreq) as Hst.
  pose proof (process_page_older_result year page_num r songs data setlists
                entries Hst Hbody Hget Hiter Hold) as Hproc.
  pose proof (loop_at_run _ _ _ _ _ _ _ _ _ _ Hloop) as Hrun.
  rewrite fetch_pages_step, Hreq, Hproc in Hrun. rewrite Hproc.
  destruct (scan_setlists year entries songs false) as [[songs' flag]|e] eqn:Escan.
  - split; [|split; [|split]].
    + apply (scan_setlists_flag _ _ _ _ _ _ Escan). now right.
    + apply (scan_setlists_collects _ _ _ _ _ _ Escan).
    + reflexivity.
    + now rewrite <- Hrun.
  - split; [|split].
    + intros Hall.
      destruct (scan_setlists_total year entries songs false Hall)
        as (res & flag & E).
      congruence.
    + reflexivity.
    + now rewrite <- Hrun.
Qed.

Lemma fetch_stops_at_older_page_witness :
  true = true
  /\ [JStr "Song 1"; JStr "Song 2"]
     = [] ++ page_songs 2023
               [dated_setlist "31-12-2022"; dated_setlist "15-10-2023"]
  /\ process_page 2023 1
       (setlists_page
          [dated_setlist "31-12-2022"; dated_setlist "15-10-2023"] 1 100) []
     = Ok (Break [JStr "Song 1"; JStr "Song 2"])
  /\ fetch_setlists_for_year Response_bool page_older_first "test-mbid" 2023 50 []
     = (Ok [JStr "Song 1"; JStr "Song 2"],
        [Get (page_request "test-mbid" 1); Sleep 1]).
Proof.
  refine (fetch_stops_at_older_page
            Response_bool page_older_first "test-mbid" 2023 50 [] 49%nat 1 [] []
            (setlists_page
               [dated_setlist "31-12-2022"; dated_setlist "15-10-2023"] 1 100)
            [Get (page_request "test-mbid" 1); Sleep 1]
            (JDict [("setlist",
                     JList [dated_setlist "31-12-2022";
                            dated_setlist "15-10-2023"]);
                    ("page", JInt 1); ("total", JInt 100);
                    ("itemsPerPage", JInt 20)])
            (JList [dated_setlist "31-12-2022"; dated_setlist "15-10-2023"])
            [dated_setlist "31-12-2022"; dated_setlist "15-10-2023"]
            (loop_first Response_bool page_older_first "test-mbid" 2023 50 []
               eq_refl)
            eq_refl eq_refl eq_refl eq_refl _).
  apply Exists_cons_hd. exists "31-12-2022", 2022.
  split; [reflexivity|]. split; [vm_compute; discriminate|].
  split; [reflexivity|]. split; [reflexivity | lia].
Defined.

(** C7: when the page that [make_request] returned satisfies
    [page_num * itemsPerPage >= total], the call ends with the trace as it
    is after that request; every GET of a call asks for a page between 1
    and [max_pages]; and with two pages, 40 results and 20 per page, the
    call makes exactly two GETs and returns the songs of both pages. *)
Theorem fetch_pagination_end :
  (forall response_bool net mbid year max_pages t0 pages_left page_num songs
          t r t',
      loop_at response_bool net mbid year max_pages t0
        (S pages_left) page_num songs t ->
      make_request response_bool net (setlists_url mbid) [("p", page_num)] 30 t
      = (Ok r, t') ->
      page_is_last page_num r ->
      exists res,
        fetch_setlists_for_year response_bool net mbid year max_pages t0
        = (res, t'))
  /\ (forall response_bool net mbid year max_pages res t,
         fetch_setlists_for_year response_bool net mbid year max_pages []
         = (res, t) ->
         pages_within max_pages t)
  /\ fetch_setlists_for_year_default Response_bool two_pages "test-mbid" 2023 []
     = (Ok [JStr "Song 1"; JStr "Song 2"; JStr "Song 1"; JStr "Song 2"],
        [Get (page_request "test-mbid" 1); Sleep 1;
         Get (page_request "test-mbid" 2); Sleep 1]).
Proof.
  split; [|split].
  - intros rb net mbid year max_pages t0 n p songs t r t' Hloop Hreq Hlast.
    rewrite <- (loop_at_run _ _ _ _ _ _ _ _ _ _ Hloop).
    apply (fetch_pages_stops _ _ _ _ _ _ _ _ r); [assumption|].
    now apply process_page_last.
  - intros rb net mbid year max_pages res t Hrun req Hin.
    apply fetch_setlists_for_year_cases in Hrun.
    destruct Hrun as [Hrun|[_ ->]]; [|destruct Hin].
    apply fetch_pages_range in Hrun. destruct Hrun as (evs & -> & Hevs).
    destruct (Hevs _ Hin) as (q & Hq & Hrange). exists q.
    split; [assumption | lia].
  - vm_compute. reflexivity.
Qed.

Lemma fetch_pagination_end_witness :
  exists res,
    fetch_setlists_for_year Response_bool single_page "test-mbid" 2023 50 []
    = (res, [Get (page_request "test-mbid" 1); Sleep 1]).
Proof.
  refine (proj1 fetch_pagination_end
            Response_bool single_page "test-mbid" 2023 50 [] 49%nat 1 [] []
            (setlists_page [dated_setlist "15-10-2023"] 1 1)
            [Get (page_request "test-mbid" 1); Sleep 1]
            (loop_first Response_bool single_page "test-mbid" 2023 50 [] eq_refl)
            eq_refl _).
  eexists _, (JInt 1), (JInt 20), 1, 20.
  split; [reflexivity|]. split; [reflexivity|]. split; [reflexivity|].
  split; [reflexivity|]. split; [reflexivity | lia].
Defined.

(* ================================================================== *)
(** * Properties of [search_artist] *)

Example search_artist_tests :
  search_artist_in "The Beatles"
    (JDict [("artist", JList [artist_json "The Beatles" "b10bbbfc" None;
                              artist_json "Beatles Tribute" "other-id" None])])
  = Found (JStr "The Beatles") (JStr "b10bbbfc")
  /\ search_artist_in "The Beatles"
       (JDict [("artist",
                JList [artist_json "Beatles Tribute" "tribute-id" (Some "tribute band");
                       artist_json "The Beatles Cover Band" "cover-id" None])])
     = Found (JStr "The Beatles Cover Band") (JStr "cover-id")
  /\ search_artist_in "The Beatles"
       (JDict [("artist", JList [artist_json "Beatles feat. Someone" "feat-id" None])])
     = Found (JStr "Beatles feat. Someone") (JStr "feat-id")
  /\ search_artist_in "Unknown Artist" (JDict [("artist", JList [])])
     = SearchRaise (ArtistNotFound "Unknown Artist").
Proof. repeat split; reflexivity. Qed.

Lemma artist_ok_record artist :
  artist_ok artist = true -> exists name mbid, artist_record artist = Found name mbid.
Proof.
  destruct artist as [| | | | |d]; try discriminate. unfold artist_ok, artist_record.
  simpl. destruct (Py.lookup "name" d) as [[| | |s| |]|]; try discriminate.
  destruct (Py.lookup "mbid" d) as [m|]; try discriminate. eauto.
Qed.

Lemma exact_match_found q artists name mbid :
  exact_match q artists = Some (Found name mbid) ->
  exists artist, In artist artists /\ artist_record artist = Found name mbid
                 /\ name_is q artist = true.
Proof.
  induction artists as [|a rest IH]; simpl; [discriminate|].
  unfold subscript, lower_of, name_is.
  destruct a as [| | | | |d]; try discriminate.
  destruct (Py.lookup "name" d) as [[| | |s| |]|] eqn:En; try discriminate.
  destruct (String.eqb (PyStr.lower s) (PyStr.lower q)) eqn:Eq.
  - intros H. inversion H. exists (JDict d). simpl. rewrite En, Eq. auto.
  - intros H. destruct (IH H) as (x & Hin & Hrec & Hname). exists x. auto.
Qed.

Lemma clean_match_found artists name mbid :
  clean_match artists = Some (Found name mbid) ->
  exists artist, In artist artists /\ artist_record artist = Found name mbid
                 /\ is_clean artist = inr true.
Proof.
  induction artists as [|a rest IH]; simpl; [discriminate|].
  destruct (is_clean a) as [e|[|]] eqn:Ec.
  - unfold is_clean, subscript, lower_of in Ec.
    destruct a as [| | | | |d];
      try (inversion Ec; subst; discriminate).
    destruct (Py.lookup "name" d) as [[| | |s| |]|];
      try (inversion Ec; subst; discriminate).
    destruct (negb (contains "feat." (PyStr.lower s))); [|discriminate].
    simpl in Ec.
    destruct (Py.lookup "disambiguation" d) as [[| | |s'| |]|];
      inversion Ec; subst; discriminate.
  - intros H. inversion H. exists a. auto.
  - intros H. destruct (IH H) as (x & Hin & Hrec & Hc). exists x. auto.
Qed.

(** X16: Whatever [search_artist] returns is the name and the identifier of one
    and the same candidate of the response. *)
Theorem search_artist_returns_a_candidate q data name mbid :
  search_artist_in q data = Found name mbid ->
  exists candidates artists artist,
    Py.get data "artist" JNull = Ok candidates
    /\ Py.iter candidates = Ok artists
    /\ In artist artists
    /\ subscript artist "name" = inr name
    /\ subscript artist "mbid" = inr mbid.
Proof.
  unfold search_artist_in.
  destruct (Py.get data "artist" (JList [])) as [logged|]; [|discriminate].
  destruct (Py.len logged) as [size|]; [|discriminate].
  destruct (Py.get data "artist" JNull) as [candidates|]; [|discriminate].
  destruct (Py.truthy candidates); [|discriminate].
  destruct (Py.iter candidates) as [artists|] eqn:Eiter; [|discriminate].
  assert (Hrec : forall artist, artist_record artist = Found name mbid ->
            subscript artist "name" = inr name
            /\ subscript artist "mbid" = inr mbid).
  { intros artist. unfold artist_record.
    destruct (subscript artist "name") as [e|n] eqn:E1.
    - unfold subscript in E1. destruct artist as [| | | | |d];
        try (inversion E1; subst; discriminate).
      destruct (Py.lookup "name" d); inversion E1; subst; discriminate.
    - destruct (subscript artist "mbid") as [e|m] eqn:E2.
      + unfold subscript in E2. destruct artist as [| | | | |d];
          try (inversion E2; subst; discriminate).
        destruct (Py.lookup "mbid" d); inversion E2; subst; discriminate.
      + intros H. inversion H; subst. auto. }
  intros H. exists candidates, artists.
  destruct (exact_match q artists) as [res|] eqn:Ee.
  - subst res. destruct (exact_match_found _ _ _ _ Ee) as (a & Hin & Ha & _).
    exists a. destruct (Hrec a Ha). auto.
  - destruct (clean_match artists) as [res|] eqn:Ec.
    + subst res. destruct (clean_match_found _ _ _ Ec) as (a & Hin & Ha & _).
      exists a. destruct (Hrec a Ha). auto.
    + destruct candidates as [| | |s|l|d]; simpl in H; try discriminate.
      destruct l as [|x l']; [discriminate|].
      simpl in Eiter. inversion Eiter; subst.
      exists x. destruct (Hrec x H). simpl. auto.
Qed.

Lemma search_artist_returns_a_candidate_witness :
  exists candidates artists artist,
    Py.get (JDict [("artist", JList [artist_json "Beatles feat. Someone" "feat-id" None])])
      "artist" JNull = Ok candidates
    /\ Py.iter candidates = Ok artists
    /\ In artist artists
    /\ subscript artist "name" = inr (JStr "Beatles feat. Someone")
    /\ subscript artist "mbid" = inr (JStr "feat-id").
Proof.
  apply (search_artist_returns_a_candidate "The Beatles"
           (JDict [("artist",
                    JList [artist_json "Beatles feat. Someone" "feat-id" None])])).
  reflexivity.
Defined.

Lemma exact_match_skips q l1 rest :
  Forall (fun x => artist_ok x = true /\ name_is q x = false) l1 ->
  exact_match q (l1 ++ rest) = exact_match q rest.
Proof.
  induction 1 as [|a l1 [Hok Hname] _ IH]; simpl; [reflexivity|].
  destruct a as [| | | | |d]; try discriminate.
  unfold artist_ok in Hok. unfold name_is in Hname. unfold subscript, lower_of.
  destruct (Py.lookup "name" d) as [[| | |s| |]|]; try discriminate.
  now rewrite Hname.
Qed.

(** X17: A candidate whose name is the query up to letter case is returned, even
    when candidates in front of it would pass as clean matches: the first
    such candidate wins. *)
Theorem search_artist_exact_match_first q d l1 a l2 :
  Py.lookup "artist" d = Some (JList (l1 ++ a :: l2)) ->
  Forall (fun x => artist_ok x = true /\ name_is q x = false) l1 ->
  artist_ok a = true ->
  name_is q a = true ->
  search_artist_in q (JDict d) = artist_record a
  /\ exists name mbid, artist_record a = Found name mbid.
Proof.
  intros Hd Hl1 Hok Hname. split; [|now apply artist_ok_record].
  unfold search_artist_in. simpl. rewrite Hd. simpl.
  replace (match l1 ++ a :: l2 with [] => false | _ :: _ => true end)
    with true by (destruct l1; reflexivity).
  rewrite (exact_match_skips q l1 (a :: l2) Hl1). simpl.
  destruct a as [| | | | |da]; try discriminate.
  unfold name_is in Hname. unfold subscript at 1, lower_of.
  destruct (Py.lookup "name" da) as [[| | |s| |]|]; try discriminate.
  now rewrite Hname.
Qed.

Lemma search_artist_exact_match_first_witness :
  search_artist_in "the beatles"
    (JDict [("artist", JList [artist_json "Beatles Revival" "other-id" None;
                              artist_json "The Beatles" "b10bbbfc" None])])
  = artist_record (artist_json "The Beatles" "b10bbbfc" None).
Proof.
  refine (proj1 (search_artist_exact_match_first "the beatles"
           [("artist", JList [artist_json "Beatles Revival" "other-id" None;
                              artist_json "The Beatles" "b10bbbfc" None])]
           [artist_json "Beatles Revival" "other-id" None]
           (artist_json "The Beatles" "b10bbbfc" None) []
           eq_refl _ eq_refl eq_refl)).
  constructor; [split; reflexivity | constructor].
Defined.

(** X18: Without candidates the search fails with "Artist not found": the key
    is absent or the list is empty.  An explicit null is not read that way:
    the debug line takes its length first, and that raises [TypeError]. *)
Theorem search_artist_no_candidates q d :
  (Py.lookup "artist" d = None \/ Py.lookup "artist" d = Some (JList []) ->
   search_artist_in q (JDict d) = SearchRaise (ArtistNotFound q))
  /\ (Py.lookup "artist" d = Some JNull ->
      search_artist_in q (JDict d) = SearchRaise (PyError TypeError)).
Proof.
  unfold search_artist_in. simpl. split.
  - intros [H|H]; rewrite H; reflexivity.
  - intros H. rewrite H. reflexivity.
Qed.

Lemma search_artist_no_candidates_witness :
  search_artist_in "Unknown Artist" (JDict [("type", JStr "artists")])
  = SearchRaise (ArtistNotFound "Unknown Artist")
  /\ search_artist_in "Unknown Artist" (JDict [("artist", JNull)])
     = SearchRaise (PyError TypeError).
Proof.
  split.
  - apply (proj1 (search_artist_no_candidates "Unknown Artist"
                    [("type", JStr "artists")])).
    left. reflexivity.
  - apply (proj2 (search_artist_no_candidates "Unknown Artist"
                    [("artist", JNull)])).
    reflexivity.
Defined.

Lemma artist_ok_is_clean artist :
  artist_ok artist = true -> exists b, is_clean artist = inr b.
Proof.
  destruct artist as [| | | | |d]; try discriminate.
  unfold artist_ok, is_clean, subscript, lower_of. simpl.
  destruct (Py.lookup "name" d) as [[| | |s| |]|]; try discriminate.
  destruct (Py.lookup "mbid" d); try discriminate.
  destruct (negb (contains "feat." (PyStr.lower s))); [|eauto].
  destruct (Py.lookup "disambiguation" d) as [[| | |s'| |]|];
    try discriminate; eauto.
Qed.

Lemma exact_match_well_formed q artists :
  forallb artist_ok artists = true ->
  exact_match q artists = None
  \/ exists name mbid, exact_match q artists = Some (Found name mbid).
Proof.
  induction artists as [|a rest IH]; simpl; [auto|].
  intros H. apply andb_prop in H. destruct H as [Ha Hrest].
  destruct (artist_ok_record a Ha) as (n & m & Hrec).
  destruct a as [| | | | |d]; try discriminate.
  unfold artist_ok in Ha. unfold subscript, lower_of.
  destruct (Py.lookup "name" d) as [[| | |s| |]|]; try discriminate.
  destruct (String.eqb (PyStr.lower s) (PyStr.lower q)); [|auto].
  right. rewrite Hrec. eauto.
Qed.

Lemma clean_match_well_formed artists :
  forallb artist_ok artists = true ->
  clean_match artists = None
  \/ exists name mbid, clean_match artists = Some (Found name mbid).
Proof.
  induction artists as [|a rest IH]; simpl; [auto|].
  intros H. apply andb_prop in H. destruct H as [Ha Hrest].
  destruct (artist_ok_record a Ha) as (n & m & Hrec).
  destruct (artist_ok_is_clean a Ha) as ([|] & Hc); rewrite Hc; [|auto].
  right. rewrite Hrec. eauto.
Qed.

Lemma exact_match_none q artists :
  Forall (fun x => name_is q x = false /\ is_clean x = inr false) artists ->
  forallb artist_ok artists = true ->
  exact_match q artists = None /\ clean_match artists = None.
Proof.
  induction 1 as [|a rest [Hname Hclean] _ IH]; simpl; [auto|].
  intros H. apply andb_prop in H. destruct H as [Ha Hrest].
  destruct (IH Hrest) as [IH1 IH2]. rewrite Hclean. split; [|assumption].
  destruct a as [| | | | |d]; try discriminate.
  unfold artist_ok in Ha. unfold name_is in Hname. unfold subscript, lower_of.
  destruct (Py.lookup "name" d) as [[| | |s| |]|]; try discriminate.
  now rewrite Hname.
Qed.

(** X19: On a non-empty list of well-formed artist records the search never
    fails; and when no name is the query and no candidate passes as clean
    (each is a "feat." or a tribute), the first candidate is returned. *)
Theorem search_artist_well_formed q d a rest :
  Py.lookup "artist" d = Some (JList (a :: rest)) ->
  forallb artist_ok (a :: rest) = true ->
  (exists name mbid, search_artist_in q (JDict d) = Found name mbid)
  /\ (Forall (fun x => name_is q x = false /\ is_clean x = inr false) (a :: rest) ->
      search_artist_in q (JDict d) = artist_record a).
Proof.
  intros Hd Hok. unfold search_artist_in. simpl Py.get. rewrite Hd.
  cbn [Py.len Py.truthy Py.iter first_artist].
  assert (Ha : artist_ok a = true)
    by (simpl in Hok; now apply andb_prop in Hok).
  split.
  - destruct (exact_match_well_formed q _ Hok) as [He|(n & m & He)]; rewrite He;
      [|eauto].
    destruct (clean_match_well_formed _ Hok) as [Hc|(n & m & Hc)]; rewrite Hc;
      [|eauto].
    now apply artist_ok_record.
  - intros Hnone. destruct (exact_match_none q _ Hnone Hok) as [He Hc].
    now rewrite He, Hc.
Qed.

Lemma search_artist_well_formed_witness :
  search_artist_in "The Beatles"
    (JDict [("artist",
             JList [artist_json "Beatles feat. Someone" "feat-id" None;
                    artist_json "Beatles Night" "trib-id" (Some "Tribute band")])])
  = artist_record (artist_json "Beatles feat. Someone" "feat-id" None).
Proof.
  refine (proj2 (search_artist_well_formed "The Beatles"
           [("artist",
             JList [artist_json "Beatles feat. Someone" "feat-id" None;
                    artist_json "Beatles Night" "trib-id" (Some "Tribute band")])]
           (artist_json "Beatles feat. Someone" "feat-id" None)
           [artist_json "Beatles Night" "trib-id" (Some "Tribute band")]
           eq_refl eq_refl) _).
  repeat constructor.
Defined.

Lemma exact_match_query_case q q' artists :
  PyStr.lower q = PyStr.lower q' ->
  exact_match q artists = exact_match q' artists.
Proof.
  intros H. induction artists as [|a rest IH]; simpl; [reflexivity|].
  now rewrite H, IH.
Qed.

(** X20: The letter case of the query does not matter: two queries with the
    same lower-case form get the same answer, apart from the query quoted
    in "Artist not found". *)
Theorem search_artist_query_case q q' data :
  PyStr.lower q = PyStr.lower q' ->
  search_artist_in q data = search_artist_in q' data
  \/ (search_artist_in q data = SearchRaise (ArtistNotFound q)
      /\ search_artist_in q' data = SearchRaise (ArtistNotFound q')).
Proof.
  intros H. unfold search_artist_in.
  destruct (Py.get data "artist" (JList [])) as [logged|]; [|now left].
  destruct (Py.len logged) as [size|]; [|now left].
  destruct (Py.get data "artist" JNull) as [candidates|]; [|now left].
  destruct (Py.truthy candidates); [|now right].
  destruct (Py.iter candidates) as [artists|]; [|now left].
  rewrite (exact_match_query_case q q' artists H). now left.
Qed.

Lemma search_artist_query_case_witness :
  search_artist_in "MEGADETH"
    (JDict [("artist", JList [artist_json "Megadeth" "a9044915" None])])
  = search_artist_in "megadeth"
      (JDict [("artist", JList [artist_json "Megadeth" "a9044915" None])])
  \/ (search_artist_in "MEGADETH"
        (JDict [("artist", JList [artist_json "Megadeth" "a9044915" None])])
      = SearchRaise (ArtistNotFound "MEGADETH")
      /\ search_artist_in "megadeth"
           (JDict [("artist", JList [artist_json "Megadeth" "a9044915" None])])
         = SearchRaise (ArtistNotFound "megadeth")).
Proof.
  apply (search_artist_query_case "MEGADETH" "megadeth"
           (JDict [("artist", JList [artist_json "Megadeth" "a9044915" None])])).
  reflexivity.
Defined.

(* ================================================================== *)
(** * Further properties of the frequency ranker *)

Lemma firstn_incl_NoDup (A : Type) (l : list A) k :
  NoDup l -> NoDup (firstn k l) /\ forall x, In x (firstn k l) -> In x l.
Proof.
  intros Hnd. split.
  - rewrite <- (firstn_skipn k l) in Hnd. now apply NoDup_app_remove_r in Hnd.
  - intros x Hin. rewrite <- (firstn_skipn k l). apply in_or_app. now left.
Qed.

(** X1: For every [n], negative ones included, the output holds no title
    twice, holds only titles of the input, and is never longer than the
    number of distinct titles. *)
Theorem top_songs_sound L n :
  NoDup (top_songs L n)
  /\ (forall t, In t (top_songs L n) -> In t L)
  /\ (List.length (top_songs L n) <= distinct_titles L)%nat.
Proof.
  destruct (top_songs_firstn L n) as [k Hk]. rewrite Hk.
  destruct (firstn_incl_NoDup _ (map fst (ranking L)) k (ranking_titles_NoDup L))
    as [Hnd Hin].
  split; [assumption|]. split.
  - intros t Ht. apply ranking_titles_In. auto.
  - rewrite length_firstn, length_map, ranking_length. lia.
Qed.

Lemma total_count_add t c : total_count (counter_add t c) = total_count c + 1.
Proof.
  unfold total_count. induction c as [|[k v] c IH]; simpl; [reflexivity|].
  destruct (String.eqb k t); simpl; lia.
Qed.

(** X2: The tally drops nothing: the counts add up to the length of the input,
    and the count of each title is the number of its occurrences, at least
    one. *)
Theorem Counter_tally L :
  total_count (Counter L) = Z.of_nat (List.length L)
  /\ forall t v, In (t, v) (Counter L) -> v = occurrences L t /\ 1 <= v.
Proof.
  split.
  - unfold Counter.
    assert (H : forall c, total_count (fold_left (fun c t => counter_add t c) L c)
                          = total_count c + Z.of_nat (List.length L)).
    { induction L as [|t L IH]; intros c; simpl List.length; simpl fold_left.
      - simpl. lia.
      - rewrite IH, total_count_add. lia. }
    now rewrite H.
  - intros t v Hin. pose proof (Counter_count _ _ _ Hin) as Hv.
    split; [assumption|]. subst v.
    assert (Ht : In t L).
    { apply Counter_In. change t with (fst (t, occurrences L t)).
      now apply in_map. }
    unfold occurrences. apply (count_occ_In string_dec) in Ht. lia.
Qed.

Lemma StronglySorted_unique (A : Type) (R : A -> A -> Prop) (l1 l2 : list A) :
  (forall a b, In a l1 -> In b l1 -> R a b -> R b a -> a = b) ->
  StronglySorted R l1 -> StronglySorted R l2 ->
  NoDup l1 -> NoDup l2 ->
  (forall x, In x l1 <-> In x l2) ->
  l1 = l2.
Proof.
  revert l2. induction l1 as [|a l1 IH]; intros l2 Hanti S1 S2 N1 N2 Hsame.
  - destruct l2 as [|b l2]; [reflexivity|].
    destruct (proj2 (Hsame b)); simpl; auto.
  - destruct l2 as [|b l2].
    { destruct (proj1 (Hsame a)); simpl; auto. }
    inversion S1 as [|? ? S1' F1]; subst. inversion S2 as [|? ? S2' F2]; subst.
    inversion N1 as [|? ? Ha1 N1']; subst. inversion N2 as [|? ? Hb2 N2']; subst.
    assert (Hab : a = b).
    { destruct (proj1 (Hsame a) (or_introl eq_refl)) as [E|Hin2]; [now symmetry|].
      destruct (proj2 (Hsame b) (or_introl eq_refl)) as [E|Hin1]; [assumption|].
      apply Hanti; simpl; auto.
      - rewrite Forall_forall in F1. auto.
      - rewrite Forall_forall in F2. auto. }
    subst b. f_equal. apply IH; try assumption.
    + intros x y Hx Hy. apply Hanti; simpl; auto.
    + intros x. split; intros Hx.
      * destruct (proj1 (Hsame x) (or_intror Hx)) as [E|H]; [|assumption].
        subst x. contradiction.
      * destruct (proj2 (Hsame x) (or_intror Hx)) as [E|H]; [|assumption].
        subst x. contradiction.
Qed.

Lemma top_songs_slice L n : top_songs L n = slice_to (map fst (ranking L)) n.
Proof.
  unfold top_songs, slice_to. rewrite length_map.
  destruct (n <? 0); now rewrite firstn_map.
Qed.

(** X3: When no two titles differ in letter case only, the ranking does not
    depend on the order of the input: any rearrangement of the song list
    gives the same output. *)
Theorem top_songs_order_independent L L' n :
  Permutation L L' -> case_distinct L -> top_songs L n = top_songs L' n.
Proof.
  intros Hperm Hcase. rewrite !top_songs_slice. f_equal.
  assert (Hocc : forall t, occurrences L' t = occurrences L t).
  { intros t. unfold occurrences. f_equal. symmetry.
    revert t. now apply (Permutation_count_occ string_dec). }
  apply StronglySorted_unique with (R := rank_le L).
  - intros a b Ha Hb Hab Hba.
    apply (proj1 (ranking_titles_In L a)) in Ha.
    apply (proj1 (ranking_titles_In L b)) in Hb.
    apply (Hcase a b Ha Hb).
    unfold rank_le, PyStr.le in Hab, Hba.
    destruct Hab as [H1|[H1 H1']], Hba as [H2|[H2 H2']]; try lia.
    now apply String.leb_antisym.
  - apply ranking_StronglySorted.
  - assert (Himp : forall l, StronglySorted (rank_le L') l ->
                             StronglySorted (rank_le L) l).
    { induction 1 as [|x l Hs IH Hf]; constructor; [assumption|].
      eapply Forall_impl; [|exact Hf]. intros y. unfold rank_le.
      now rewrite !Hocc. }
    apply Himp, ranking_StronglySorted.
  - apply ranking_titles_NoDup.
  - apply ranking_titles_NoDup.
  - intros t. rewrite !ranking_titles_In. split; apply Permutation_in.
    + assumption.
    + now apply Permutation_sym.
Qed.

Lemma top_songs_order_independent_witness :
  top_songs ["a"; "B"; "a"; "c"] 2 = top_songs ["c"; "a"; "a"; "B"] 2.
Proof.
  apply (top_songs_order_independent ["a"; "B"; "a"; "c"] ["c"; "a"; "a"; "B"] 2).
  - apply (Permutation_cons_app ["c"] ["a"; "B"]).
    apply (Permutation_cons_app ["c"; "a"] []).
    apply (Permutation_cons_app ["c"] []).
    reflexivity.
  - intros a b Ha Hb. simpl in Ha, Hb.
    repeat match goal with
           | H : _ \/ _ |- _ => destruct H
           | H : False |- _ => destruct H
           end; subst; simpl; intros E; try reflexivity; discriminate E.
Defined.

(* ================================================================== *)
(** * Further properties of [make_request] *)

Section MakeRequestProtocol.
Variable response_bool : Response -> bool.
Variable net : Network.
Variable req : Request.

Lemma make_request_loop_rounds remaining retry_after t res t' :
  make_request_loop response_bool net req remaining retry_after t = (res, t') ->
  exists k evs,
    t' = t ++ evs /\ rounds req k evs /\ (k <= remaining)%nat
    /\ (remaining <> 0%nat -> k <> 0%nat).
Proof.
  revert retry_after t.
  induction remaining as [|remaining IH]; intros retry_after t.
  - intros H. inversion H; subst. exists 0%nat, [].
    rewrite app_nil_r. repeat split; [constructor | lia | auto].
  - assert (Hstop : forall res0,
               (res0, t ++ [Get req]) = (res, t') ->
               exists k evs,
                 t' = t ++ evs /\ rounds req k evs /\ (k <= S remaining)%nat
                 /\ (S remaining <> 0%nat -> k <> 0%nat)).
    { intros res0 H. inversion H; subst. exists 1%nat, [Get req].
      repeat split; [repeat constructor | lia | lia]. }
    assert (Hnext : forall ra,
               make_request_loop response_bool net req remaining ra
                 (t ++ [Get req]) = (res, t') ->
               exists k evs,
                 t' = t ++ evs /\ rounds req k evs /\ (k <= S remaining)%nat
                 /\ (S remaining <> 0%nat -> k <> 0%nat)).
    { intros ra H. apply IH in H. destruct H as (k & evs & -> & Hr & Hk & _).
      exists (S k), (Get req :: evs). rewrite <- app_assoc.
      repeat split; [now constructor | lia | lia]. }
    assert (Hsleep : forall ra d,
               sleep_error d = None ->
               make_request_loop response_bool net req remaining ra
                 ((t ++ [Get req]) ++ [Sleep d]) = (res, t') ->
               exists k evs,
                 t' = t ++ evs /\ rounds req k evs /\ (k <= S remaining)%nat
                 /\ (S remaining <> 0%nat -> k <> 0%nat)).
    { intros ra d Hd H. apply IH in H. destruct H as (k & evs & -> & Hr & Hk & _).
      exists (S k), (Get req :: Sleep d :: evs). rewrite <- !app_assoc.
      apply sleep_error_none in Hd.
      repeat split; [constructor; [lia | assumption] | lia | lia]. }
    rewrite make_request_loop_step. cbv zeta.
    destruct (net (List.length (gets t)) req) as [r0|e].
    + destruct (status_code r0 =? 429).
      * destruct (rate_limit_delay r0 retry_after) as [d|]; [|apply Hstop].
        destruct (sleep_error d) eqn:Ed; [apply Hstop | now apply Hsleep].
      * destruct (is_error_status r0).
        -- destruct (should_reraise response_bool (HTTPError r0)); [apply Hstop|].
           destruct (_ >=? _); [apply Hstop | apply Hnext].
        -- intros H. inversion H; subst.
           exists 1%nat, [Get req; Sleep RATE_LIMIT_DELAY]. rewrite <- app_assoc.
           repeat split; [|lia|lia].
           apply rounds_get_sleep; [unfold RATE_LIMIT_DELAY; lia | constructor].
    + destruct (should_reraise response_bool e); [apply Hstop|].
      destruct (_ >=? _); [apply Hstop | apply Hnext].
Qed.

Lemma make_request_loop_success_end remaining retry_after t r t' :
  make_request_loop response_bool net req remaining retry_after t = (Ok r, t') ->
  exists evs, t' = t ++ evs ++ [Get req; Sleep RATE_LIMIT_DELAY]
              /\ net (List.length (gets (t ++ evs))) req = Returns r.
Proof.
  revert retry_after t.
  induction remaining as [|remaining IH]; intros retry_after t; [discriminate|].
  assert (Hnext : forall ra t1,
             (exists evs1, t1 = t ++ evs1) ->
             make_request_loop response_bool net req remaining ra t1 = (Ok r, t') ->
             exists evs, t' = t ++ evs ++ [Get req; Sleep RATE_LIMIT_DELAY]
                         /\ net (List.length (gets (t ++ evs))) req = Returns r).
  { intros ra t1 [evs1 ->] H. apply IH in H. destruct H as (evs & -> & Hnet).
    exists (evs1 ++ evs). rewrite <- !app_assoc.
    split; [reflexivity|]. now rewrite app_assoc. }
  rewrite make_request_loop_step. cbv zeta.
  destruct (net (List.length (gets t)) req) as [r0|e] eqn:Enet.
  - destruct (status_code r0 =? 429).
    + destruct (rate_limit_delay r0 retry_after) as [d|]; [|discriminate].
      destruct (sleep_error d); [discriminate|].
      apply Hnext. exists [Get req; Sleep d]. now rewrite <- app_assoc.
    + destruct (is_error_status r0).
      * destruct (should_reraise response_bool (HTTPError r0)); [discriminate|].
        destruct (_ >=? _); [discriminate|]. apply Hnext. eauto.
      * intros H. inversion H; subst. exists []. rewrite app_nil_r.
        split; [now rewrite <- app_assoc | assumption].
  - destruct (should_reraise response_bool e); [discriminate|].
    destruct (_ >=? _); [discriminate|]. apply Hnext. eauto.
Qed.
End MakeRequestProtocol.

(** X4: Whatever the network does, a call of [make_request] makes between one
    and three attempts, every one a GET of the same request, each followed
    by at most one sleep, and no sleep has a negative length. *)
Theorem make_request_attempts response_bool net url params timeout t res t' :
  make_request response_bool net url params timeout t = (res, t') ->
  exists k evs,
    t' = t ++ evs
    /\ rounds (mkRequest url params timeout) k evs
    /\ (1 <= k <= 3)%nat.
Proof.
  intros H. unfold make_request in H.
  apply make_request_loop_rounds in H.
  destruct H as (k & evs & Ht & Hr & Hk & Hpos).
  exists k, evs. change (Z.to_nat MAX_RETRIES) with 3%nat in *.
  assert (k <> 0%nat) by (apply Hpos; discriminate).
  repeat split; try assumption; lia.
Qed.

Lemma make_request_attempts_witness :
  exists k evs,
    [Get test_request; Sleep 2; Get test_request; Sleep 1] = [] ++ evs
    /\ rounds test_request k evs
    /\ (1 <= k <= 3)%nat.
Proof.
  apply (make_request_attempts Response_bool
           (scripted [Returns (rate_limited (Some "2"))] (Returns success_response))
           "https://test.url" [] 20 [] (Ok success_response)
           [Get test_request; Sleep 2; Get test_request; Sleep 1]).
  reflexivity.
Defined.

(** X5: A response that [make_request] returns is the answer to the last GET
    of the call, has no error status, and is followed by the sleep of the
    base delay, the last event of the call. *)
Theorem make_request_success response_bool net url params timeout t r t' :
  make_request response_bool net url params timeout t = (Ok r, t') ->
  is_error_status r = false
  /\ exists evs,
       t' = t ++ evs ++ [Get (mkRequest url params timeout);
                         Sleep RATE_LIMIT_DELAY]
       /\ net (List.length (gets (t ++ evs))) (mkRequest url params timeout)
          = Returns r.
Proof.
  intros H. unfold make_request in H. split.
  - now apply make_request_loop_returns_ok in H.
  - now apply make_request_loop_success_end in H.
Qed.

Lemma make_request_success_witness :
  is_error_status success_response = false
  /\ exists evs,
       [Get test_request; Sleep 2; Get test_request; Sleep 1]
       = [] ++ evs ++ [Get test_request; Sleep RATE_LIMIT_DELAY]
       /\ scripted [Returns (rate_limited (Some "2"))] (Returns success_response)
            (List.length (gets ([] ++ evs))) test_request
          = Returns success_response.
Proof.
  apply (make_request_success Response_bool
           (scripted [Returns (rate_limited (Some "2"))] (Returns success_response))
           "https://test.url" [] 20 [] success_response
           [Get test_request; Sleep 2; Get test_request; Sleep 1]).
  reflexivity.
Defined.

(** X6: A failure of the transport that carries no response (a connection
    error, a timeout) is not raised again: the request is repeated without
    a sleep; a later success is returned, and after three failures the last
    one is wrapped in the [RuntimeError]. *)
Theorem make_request_transport_failure response_bool net url params timeout e1 :
  let req := mkRequest url params timeout in
  net 0%nat req = Fails e1 ->
  exc_response e1 = None ->
  (forall r2,
      net 1%nat req = Returns r2 -> is_error_status r2 = false ->
      make_request response_bool net url params timeout []
      = (Ok r2, [Get req; Get req; Sleep RATE_LIMIT_DELAY]))
  /\ (forall e2 e3,
         net 1%nat req = Fails e2 -> exc_response e2 = None ->
         net 2%nat req = Fails e3 -> exc_response e3 = None ->
         make_request response_bool net url params timeout []
         = (Raise (RuntimeError_after_retries e3), [Get req; Get req; Get req])).
Proof.
  intros req H1 N1. unfold make_request. fold req.
  change (Z.to_nat MAX_RETRIES) with 3%nat.
  assert (Hfail : forall remaining ra t e,
            net (List.length (gets t)) req = Fails e ->
            exc_response e = None ->
            make_request_loop response_bool net req (S remaining) ra t
            = if MAX_RETRIES - Z.of_nat (S remaining) >=? MAX_RETRIES - 1
              then (Raise (RuntimeError_after_retries e), t ++ [Get req])
              else make_request_loop response_bool net req remaining ra
                     (t ++ [Get req])).
  { intros remaining ra t e Hn He. rewrite make_request_loop_step. cbv zeta.
    rewrite Hn. unfold should_reraise. now rewrite He. }
  rewrite (Hfail 2%nat _ [] e1 H1 N1).
  change (MAX_RETRIES - Z.of_nat 3 >=? MAX_RETRIES - 1) with false. cbv iota.
  split.
  - intros r2 H2 Hok.
    now rewrite (make_request_loop_success response_bool net req 1 _
                   ([] ++ [Get req]) r2).
  - intros e2 e3 H2 N2 H3 N3.
    rewrite (Hfail 1%nat _ ([] ++ [Get req]) e2 H2 N2).
    change (MAX_RETRIES - Z.of_nat 2 >=? MAX_RETRIES - 1) with false. cbv iota.
    rewrite (Hfail 0%nat _ (([] ++ [Get req]) ++ [Get req]) e3 H3 N3).
    reflexivity.
Qed.

Lemma make_request_transport_failure_witness :
  make_request Response_bool
    (scripted [] (Fails (TransportFailure "connection refused" None)))
    "https://test.url" [] 20 []
  = (Raise (RuntimeError_after_retries
              (TransportFailure "connection refused" None)),
     [Get test_request; Get test_request; Get test_request]).
Proof.
  apply (proj2 (make_request_transport_failure Response_bool
                  (scripted [] (Fails (TransportFailure "connection refused" None)))
                  "https://test.url" [] 20
                  (TransportFailure "connection refused" None)
                  eq_refl eq_refl)
           (TransportFailure "connection refused" None)
           (TransportFailure "connection refused" None)
           eq_refl eq_refl eq_refl eq_refl).
Defined.

(** What [int] and [time.sleep] make of some Retry-After headers: a
    separator character in front of the digits is no white space for
    [int], a no-break space is; a number of seconds beyond [SLEEP_MAX] is
    read but cannot be slept, in either direction; an hour can; a run of
    4300 digits is read and one of 4301 is not. *)
Example retry_after_headers :
  PyStr.int (String (ascii_of_nat 31) "2") = None
  /\ PyStr.int (String (ascii_of_nat 160) "2") = Some 2
  /\ PyStr.int "10000000000" = Some 10000000000
  /\ sleep_error 10000000000 = Some OverflowError
  /\ sleep_error (-10000000000) = Some OverflowError
  /\ sleep_error (-1) = Some ValueError
  /\ sleep_error 3600 = None
  /\ PyStr.int (Py.repeat_string 4300 "1") <> None
  /\ PyStr.int (Py.repeat_string 4301 "1") = None.
Proof.
  repeat split; try (vm_compute; reflexivity); vm_compute; discriminate.
Qed.

(** X7: A 429 response, met on the first attempt, whose delay cannot be slept
    ends the call after that one GET, with no sleep and no further attempt:
    with the [ValueError] of [int] when the Retry-After header is not an
    integer (an HTTP date, say), with the [ValueError] of [time.sleep] when
    it is a negative integer down to [- SLEEP_MAX], and with its
    [OverflowError] when it is an integer beyond [SLEEP_MAX] in either
    direction. *)
Theorem make_request_bad_retry_after response_bool net url params timeout r :
  let req := mkRequest url params timeout in
  net 0%nat req = Returns r ->
  status_code r = 429 ->
  (rate_limit_delay r RATE_LIMIT_DELAY = None ->
   make_request response_bool net url params timeout []
   = (Raise ValueError, [Get req]))
  /\ (forall d,
         rate_limit_delay r RATE_LIMIT_DELAY = Some d ->
         - SLEEP_MAX <= d < 0 ->
         make_request response_bool net url params timeout []
         = (Raise ValueError, [Get req]))
  /\ (forall d,
         rate_limit_delay r RATE_LIMIT_DELAY = Some d ->
         d < - SLEEP_MAX \/ SLEEP_MAX < d ->
         make_request response_bool net url params timeout []
         = (Raise OverflowError, [Get req])).
Proof.
  intros req Hnet Hst. unfold make_request. fold req.
  change (Z.to_nat MAX_RETRIES) with 3%nat.
  rewrite (make_request_loop_429_error response_bool net req 2 RATE_LIMIT_DELAY
             [] r Hnet Hst).
  split; [|split].
  - now intros ->.
  - intros d -> Hd. unfold sleep_error.
    destruct (Z.ltb_spec d (- SLEEP_MAX)) as [H1|H1],
      (Z.ltb_spec SLEEP_MAX d) as [H2|H2], (Z.ltb_spec d 0) as [H3|H3];
      unfold SLEEP_MAX in *; try lia; reflexivity.
  - intros d -> Hd. unfold sleep_error.
    destruct (Z.ltb_spec d (- SLEEP_MAX)) as [H1|H1],
      (Z.ltb_spec SLEEP_MAX d) as [H2|H2];
      unfold SLEEP_MAX in *; try lia; reflexivity.
Qed.

Lemma make_request_bad_retry_after_witness :
  make_request Response_bool
    (scripted [] (Returns (rate_limited (Some "10000000000"))))
    "https://test.url" [] 20 []
  = (Raise OverflowError, [Get test_request]).
Proof.
  apply (proj2 (proj2 (make_request_bad_retry_after Response_bool
                         (scripted [] (Returns (rate_limited (Some "10000000000"))))
                         "https://test.url" [] 20
                         (rate_limited (Some "10000000000"))
                         eq_refl eq_refl))
           10000000000 eq_refl).
  right. unfold SLEEP_MAX. lia.
Defined.

(* ================================================================== *)
(** * Further properties of the song extraction *)

Lemma extract_set_songs_truthy entries songs res :
  extract_set_songs entries songs = Ok res ->
  Forall (fun x => Py.truthy x = true) songs ->
  Forall (fun x => Py.truthy x = true) res.
Proof.
  revert songs. induction entries as [|song rest IH]; simpl; intros songs H Hs.
  - now inversion H; subst.
  - unfold rbind in H.
    destruct (Py.get song "name" JNull) as [name|]; [|discriminate].
    destruct (Py.truthy name) eqn:En; [|now apply (IH _ H)].
    destruct (Py.get song "tape" JNull) as [tape|]; [|discriminate].
    destruct (negb (Py.truthy tape)); [|now apply (IH _ H)].
    apply (IH _ H). apply Forall_app. split; [assumption|]. now repeat constructor.
Qed.

Lemma extract_sets_truthy sets songs res :
  extract_sets sets songs = Ok res ->
  Forall (fun x => Py.truthy x = true) songs ->
  Forall (fun x => Py.truthy x = true) res.
Proof.
  revert songs. induction sets as [|g rest IH]; simpl; intros songs H Hs.
  - now inversion H; subst.
  - destruct (negb (Py.truthy g)); [now apply (IH _ H)|].
    unfold rbind in H.
    destruct (Py.get g "song" (JList [])) as [set_songs|]; [|discriminate].
    destruct (Py.iter set_songs) as [entries|]; [|discriminate].
    destruct (extract_set_songs entries songs) as [songs'|] eqn:E; [|discriminate].
    apply (IH _ H). now apply (extract_set_songs_truthy _ _ _ E).
Qed.

(** X14: Whatever the input, a name that the extraction returns is never null
    nor empty: it is a value that counts as true. *)
Theorem extract_songs_names_truthy setlist titles :
  _extract_songs_from_setlist setlist = Ok titles ->
  Forall (fun x => Py.truthy x = true) titles.
Proof.
  unfold _extract_songs_from_setlist, rbind.
  destruct (Py.get setlist "sets" (JDict [])) as [sets_data|]; [|discriminate].
  destruct (Py.get sets_data "set" (JList [])) as [sets|]; [|discriminate].
  intros H. apply (extract_sets_truthy _ _ _ H). constructor.
Qed.

Lemma extract_songs_names_truthy_witness :
  Forall (fun x => Py.truthy x = true) [JStr "Song 1"; JStr "Song 2"].
Proof.
  apply (extract_songs_names_truthy sample_setlist [JStr "Song 1"; JStr "Song 2"]).
  reflexivity.
Defined.

(** X15: A [set] field that holds one value instead of a sequence is read as
    the sequence of that one value, for every value that is not a list and
    whatever else the record holds under [sets]. *)
Theorem extract_songs_single_set g other :
  (forall l, g <> JList l) ->
  _extract_songs_from_setlist (JDict [("sets", JDict (("set", g) :: other))])
  = _extract_songs_from_setlist
      (JDict [("sets", JDict (("set", JList [g]) :: other))]).
Proof.
  intros Hg. unfold _extract_songs_from_setlist.
  change (Py.get (JDict [("sets", JDict (("set", g) :: other))]) "sets" (JDict []))
    with (Ok (JDict (("set", g) :: other))).
  change (Py.get (JDict [("sets", JDict (("set", JList [g]) :: other))]) "sets"
            (JDict []))
    with (Ok (JDict (("set", JList [g]) :: other))).
  cbn [rbind].
  change (Py.get (JDict (("set", g) :: other)) "set" (JList [])) with (Ok g).
  change (Py.get (JDict (("set", JList [g]) :: other)) "set" (JList []))
    with (Ok (JList [g])).
  cbn [rbind normalize_sets].
  assert (Hn : normalize_sets g = if Py.truthy g then [g] else []).
  { destruct g as [| | | |l|d]; try reflexivity. now destruct (Hg l). }
  rewrite Hn. destruct (Py.truthy g) eqn:E; [reflexivity|].
  cbn [extract_sets]. now rewrite E.
Qed.

Lemma extract_songs_single_set_witness :
  _extract_songs_from_setlist
    (JDict [("sets", JDict [("set", JDict [("song", JList [JDict [("name", JStr "Encore")]])])])])
  = _extract_songs_from_setlist
      (JDict [("sets", JDict [("set", JList [JDict [("song", JList [JDict [("name", JStr "Encore")]])]])])]).
Proof.
  apply (extract_songs_single_set
           (JDict [("song", JList [JDict [("name", JStr "Encore")]])]) []).
  intros l. discriminate.
Defined.

(* ================================================================== *)
(** * Further properties of [fetch_setlists_for_year] *)

Lemma rounds_gets req k evs : rounds req k evs -> List.length (gets evs) = k.
Proof. induction 1; simpl; auto. Qed.

Lemma gets_app t evs : gets (t ++ evs) = gets t ++ gets evs.
Proof. apply filter_app. Qed.

Section FetchMore.
Variable response_bool : Response -> bool.
Variable net : Network.
Variable mbid : string.
Variable year : Z.

Lemma fetch_pages_gets pages_left page_num songs t res t' :
  fetch_pages response_bool net mbid year pages_left page_num songs t = (res, t') ->
  (List.length (gets t') <= List.length (gets t) + 3 * pages_left)%nat.
Proof.
  revert page_num songs t.
  induction pages_left as [|n IH]; intros p songs t Hrun.
  - inversion Hrun; subst. lia.
  - rewrite fetch_pages_step in Hrun.
    destruct (make_request _ _ _ _ _ t) as [res1 t1] eqn:Hreq.
    unfold make_request in Hreq. apply make_request_loop_rounds in Hreq.
    change (Z.to_nat MAX_RETRIES) with 3%nat in Hreq.
    destruct Hreq as (k & evs & -> & Hr & Hk & _).
    assert (Hlen : List.length (gets (t ++ evs)) = (List.length (gets t) + k)%nat).
    { now rewrite gets_app, length_app, (rounds_gets _ _ _ Hr). }
    destruct res1 as [r|e]; [|inversion Hrun; subst; lia].
    destruct (process_page year p r songs) as [[s|s]|e];
      try (inversion Hrun; subst; lia).
    apply IH in Hrun. lia.
Qed.

End FetchMore.

(** X8: A call makes at most three GETs for each page of the range, so at most
    [3 * max_pages] in all, and none when [max_pages] is not positive. *)
Theorem fetch_request_bound response_bool net mbid year max_pages t res t' :
  fetch_setlists_for_year response_bool net mbid year max_pages t = (res, t') ->
  (List.length (gets t') <= List.length (gets t) + 3 * Z.to_nat max_pages)%nat.
Proof.
  intros H. apply fetch_setlists_for_year_cases in H.
  destruct H as [H|[_ ->]]; [|lia].
  now apply fetch_pages_gets in H.
Qed.

Lemma fetch_request_bound_witness :
  (List.length (gets [Get (page_request "test-mbid" 1); Sleep 1;
                      Get (page_request "test-mbid" 2); Sleep 1])
   <= List.length (gets []) + 3 * Z.to_nat 50)%nat.
Proof.
  apply (fetch_request_bound Response_bool two_pages "test-mbid" 2023 50 []
           (Ok [JStr "Song 1"; JStr "Song 2"; JStr "Song 1"; JStr "Song 2"])).
  vm_compute. reflexivity.
Defined.

(** X9: An exception that [make_request] raises for some page is raised by the
    call as it is, with nothing done after it; the songs of the earlier
    pages are not returned. *)
Theorem fetch_propagates_request_error
  response_bool net mbid year max_pages t0 pages_left page_num songs t e t' :
  loop_at response_bool net mbid year max_pages t0
    (S pages_left) page_num songs t ->
  make_request response_bool net (setlists_url mbid) [("p", page_num)] 30 t
  = (Raise e, t') ->
  fetch_setlists_for_year response_bool net mbid year max_pages t0
  = (Raise e, t').
Proof.
  intros Hloop Hreq.
  rewrite <- (loop_at_run _ _ _ _ _ _ _ _ _ _ Hloop).
  now rewrite fetch_pages_step, Hreq.
Qed.

Lemma fetch_propagates_request_error_witness :
  fetch_setlists_for_year Mock_bool
    (scripted [] (Fails (TransportFailure "API Error" None))) "test-mbid" 2023 50 []
  = (Raise (RuntimeError_after_retries (TransportFailure "API Error" None)),
     [Get (page_request "test-mbid" 1); Get (page_request "test-mbid" 1);
      Get (page_request "test-mbid" 1)]).
Proof.
  apply (fetch_propagates_request_error Mock_bool
           (scripted [] (Fails (TransportFailure "API Error" None)))
           "test-mbid" 2023 50 [] 49%nat 1 [] []).
  - apply loop_first. reflexivity.
  - reflexivity.
Defined.

(** X10: A page without setlists (the field absent, or an empty list) ends the
    call, which returns the songs collected so far. *)
Theorem fetch_stops_at_empty_page
  response_bool net mbid year max_pages t0 pages_left page_num songs t r t'
  data setlists :
  loop_at response_bool net mbid year max_pages t0
    (S pages_left) page_num songs t ->
  make_request response_bool net (setlists_url mbid) [("p", page_num)] 30 t
  = (Ok r, t') ->
  body r = Some data ->
  Py.get data "setlist" (JList []) = Ok setlists ->
  Py.truthy setlists = false ->
  fetch_setlists_for_year response_bool net mbid year max_pages t0
  = (Ok songs, t').
Proof.
  intros Hloop Hreq Hbody Hget Hempty.
  rewrite <- (loop_at_run _ _ _ _ _ _ _ _ _ _ Hloop).
  rewrite fetch_pages_step, Hreq.
  unfold process_page, response_json, rbind.
  destruct (status_code r =? 404); [reflexivity|].
  now rewrite Hbody, Hget, Hempty.
Qed.

Lemma fetch_stops_at_empty_page_witness :
  fetch_setlists_for_year Response_bool
    (scripted [] (Returns (mkResponse 200 None
                             (Some (JDict [("setlist", JList []);
                                           ("page", JInt 1); ("total", JInt 0)])))))
    "test-mbid" 2023 50 []
  = (Ok [], [Get (page_request "test-mbid" 1); Sleep 1]).
Proof.
  apply (fetch_stops_at_empty_page Response_bool
           (scripted [] (Returns (mkResponse 200 None
                             (Some (JDict [("setlist", JList []);
                                           ("page", JInt 1); ("total", JInt 0)])))))
           "test-mbid" 2023 50 [] 49%nat 1 [] []
           (mkResponse 200 None
              (Some (JDict [("setlist", JList []);
                            ("page", JInt 1); ("total", JInt 0)])))
           [Get (page_request "test-mbid" 1); Sleep 1]
           (JDict [("setlist", JList []); ("page", JInt 1); ("total", JInt 0)])
           (JList [])).
  - apply loop_first. reflexivity.
  - reflexivity.
  - reflexivity.
  - reflexivity.
  - reflexivity.
Defined.

(** X11: The year filter: when a page has been processed, the songs held are
    the songs held before followed by the songs of those entries of the
    page whose date has ten characters or more and ends in the target year,
    in page order; entries of other years add nothing. *)
Theorem process_page_collects year page_num r songs outcome data setlists entries :
  process_page year page_num r songs = Ok outcome ->
  status_code r <> 404 ->
  body r = Some data ->
  Py.get data "setlist" (JList []) = Ok setlists ->
  Py.iter setlists = Ok entries ->
  outcome_songs outcome = songs ++ page_songs year entries.
Proof.
  intros Hproc Hst Hbody Hget Hiter.
  unfold process_page, response_json, rbind in Hproc.
  rewrite (proj2 (Z.eqb_neq _ _) Hst), Hbody, Hget in Hproc.
  destruct (negb (Py.truthy setlists)) eqn:Etruthy.
  - inversion Hproc; subst. simpl.
    assert (entries = []) as ->.
    { destruct setlists as [|b|z|s|l|d]; simpl in Hiter; try discriminate;
        simpl in Etruthy.
      - destruct s; [now inversion Hiter | discriminate].
      - destruct l; [now inversion Hiter | discriminate].
      - destruct d; [now inversion Hiter | discriminate]. }
    simpl. now rewrite app_nil_r.
  - rewrite Hiter in Hproc.
    destruct (scan_setlists year entries songs false) as [[res flag]|] eqn:Escan;
      [|discriminate].
    apply scan_setlists_collects in Escan. subst res.
    destruct flag; [now inversion Hproc|].
    destruct (Py.get data "total" (JInt 0)) as [total|]; [|discriminate].
    destruct (Py.get data "itemsPerPage" (JInt 20)) as [ipp|]; [|discriminate].
    destruct (Py.mul_int page_num ipp) as [prod|]; [|discriminate].
    destruct (Py.ge prod total) as [[|]|]; inversion Hproc; reflexivity.
Qed.

Lemma process_page_collects_witness :
  outcome_songs (Break [JStr "Earlier"; JStr "Song 1"; JStr "Song 2"])
  = [JStr "Earlier"]
    ++ page_songs 2023 [dated_setlist "15-10-2023"; dated_setlist "31-12-2022"].
Proof.
  apply (process_page_collects 2023 1
           (setlists_page
              [dated_setlist "15-10-2023"; dated_setlist "31-12-2022"] 1 100)
           [JStr "Earlier"]
           (Break [JStr "Earlier"; JStr "Song 1"; JStr "Song 2"])
           (JDict [("setlist",
                    JList [dated_setlist "15-10-2023"; dated_setlist "31-12-2022"]);
                   ("page", JInt 1); ("total", JInt 100);
                   ("itemsPerPage", JInt 20)])
           (JList [dated_setlist "15-10-2023"; dated_setlist "31-12-2022"])).
  - reflexivity.
  - discriminate.
  - reflexivity.
  - reflexivity.
  - reflexivity.
Defined.

Lemma page_songs_truthy year entries :
  Forall (fun x => Py.truthy x = true) (page_songs year entries).
Proof.
  unfold page_songs. induction entries as [|entry rest IH]; simpl; [constructor|].
  apply Forall_app. split; [|assumption].
  destruct (year_matches year entry); [|constructor].
  destruct (_extract_songs_from_setlist entry) as [titles|] eqn:E; [|constructor].
  unfold _extract_songs_from_setlist, rbind in E.
  destruct (Py.get entry "sets" (JDict [])) as [sets_data|]; [|discriminate].
  destruct (Py.get sets_data "set" (JList [])) as [sets|]; [|discriminate].
  apply (extract_sets_truthy _ _ _ E). constructor.
Qed.

Lemma process_page_truthy year page_num r songs outcome :
  process_page year page_num r songs = Ok outcome ->
  Forall (fun x => Py.truthy x = true) songs ->
  Forall (fun x => Py.truthy x = true) (outcome_songs outcome).
Proof.
  intros Hproc Hs. unfold process_page, response_json, rbind in Hproc.
  destruct (status_code r =? 404); [now inversion Hproc; subst|].
  destruct (body r) as [data|]; [|discriminate].
  destruct (Py.get data "setlist" (JList [])) as [setlists|]; [|discriminate].
  destruct (negb (Py.truthy setlists)); [now inversion Hproc; subst|].
  destruct (Py.iter setlists) as [entries|]; [|discriminate].
  destruct (scan_setlists year entries songs false) as [[res flag]|] eqn:Escan;
    [|discriminate].
  apply scan_setlists_collects in Escan. subst res.
  assert (Hres : Forall (fun x => Py.truthy x = true)
                   (songs ++ page_songs year entries)).
  { apply Forall_app. split; [assumption | apply page_songs_truthy]. }
  destruct flag; [now inversion Hproc; subst|].
  destruct (Py.get data "total" (JInt 0)) as [total|]; [|discriminate].
  destruct (Py.get data "itemsPerPage" (JInt 20)) as [ipp|]; [|discriminate].
  destruct (Py.mul_int page_num ipp) as [prod|]; [|discriminate].
  destruct (Py.ge prod total) as [[|]|]; inversion Hproc; subst; assumption.
Qed.

Lemma fetch_pages_truthy response_bool net mbid year pages_left page_num songs t res t' :
  fetch_pages response_bool net mbid year pages_left page_num songs t
  = (Ok res, t') ->
  Forall (fun x => Py.truthy x = true) songs ->
  Forall (fun x => Py.truthy x = true) res.
Proof.
  revert page_num songs t.
  induction pages_left as [|n IH]; intros p songs t Hrun Hs.
  - now inversion Hrun; subst.
  - rewrite fetch_pages_step in Hrun.
    destruct (make_request _ _ _ _ _ t) as [[r|e] t1]; [|discriminate].
    destruct (process_page year p r songs) as [outcome|e] eqn:Eproc;
      [|discriminate].
    pose proof (process_page_truthy _ _ _ _ _ Eproc Hs) as Hout.
    destruct outcome as [s|s]; simpl in Hout.
    + now inversion Hrun; subst.
    + now apply (IH _ _ _ Hrun).
Qed.

(** X12: Every song that a call returns is a name that counts as true: the
    result holds no null and no empty title, whatever the catalog sent. *)
Theorem fetch_songs_truthy response_bool net mbid year max_pages t songs t' :
  fetch_setlists_for_year response_bool net mbid year max_pages t = (Ok songs, t') ->
  Forall (fun x => Py.truthy x = true) songs.
Proof.
  intros H. apply fetch_setlists_for_year_cases in H.
  destruct H as [H|[[e He] _]]; [|discriminate].
  apply (fetch_pages_truthy _ _ _ _ _ _ _ _ _ _ H). constructor.
Qed.

Lemma fetch_songs_truthy_witness :
  Forall (fun x => Py.truthy x = true)
    [JStr "Song 1"; JStr "Song 2"; JStr "Song 1"; JStr "Song 2"].
Proof.
  apply (fetch_songs_truthy Response_bool two_pages "test-mbid" 2023 50 []
           [JStr "Song 1"; JStr "Song 2"; JStr "Song 1"; JStr "Song 2"]
           [Get (page_request "test-mbid" 1); Sleep 1;
            Get (page_request "test-mbid" 2); Sleep 1]).
  vm_compute. reflexivity.
Defined.

(* ================================================================== *)
(** * Properties of the streaming side *)

Section YTMusicFacts.
Variable ytm : YTMusic.
Variable repr : json -> string.

Lemma first_video_id_truthy results video_id :
  first_video_id results = Some video_id -> Py.truthy video_id = true.
Proof.
  unfold first_video_id.
  destruct results as [| | | |[|[| | | | |d] l]|]; try discriminate.
  destruct (Py.lookup "videoId" d) as [v|]; [|discriminate].
  destruct (Py.truthy v) eqn:E; [|discriminate].
  intros H. now inversion H; subst.
Qed.

Lemma search_one_events query t found t1 :
  search_one ytm query t = (found, t1) ->
  (t1 = t ++ [Search query "songs"]
   \/ t1 = t ++ [Search query "songs"; Search query "videos"])
  /\ forall video_id, found = Some video_id -> Py.truthy video_id = true.
Proof.
  unfold search_one, call.
  destruct (ytm (List.length t) (Search query "songs")) as [results|w].
  - destruct (Py.truthy results).
    + intros H. inversion H; subst. split; [now left|].
      apply first_video_id_truthy.
    + destruct (ytm _ (Search query "videos")) as [results2|w].
      * destruct (Py.truthy results2); intros H; inversion H; subst;
          rewrite <- app_assoc; (split; [now right|]);
          [apply first_video_id_truthy | discriminate].
      * intros H. inversion H; subst. rewrite <- app_assoc.
        split; [now right | discriminate].
  - intros H. inversion H; subst. split; [now left | discriminate].
Qed.

Lemma search_loop_rounds queries video_ids t res t' :
  search_loop ytm queries video_ids t = (res, t') ->
  exists evs extra,
    t' = t ++ evs /\ search_rounds queries evs
    /\ res = video_ids ++ extra
    /\ (List.length extra <= List.length queries)%nat
    /\ Forall (fun x => Py.truthy x = true) extra.
Proof.
  revert video_ids t.
  induction queries as [|query rest IH]; intros video_ids t; simpl.
  - intros H. inversion H; subst. exists [], [].
    rewrite !app_nil_r. repeat split; constructor.
  - destruct (search_one ytm query t) as [found t1] eqn:Eone.
    destruct (search_one_events _ _ _ _ Eone) as [Ht1 Hfound].
    intros H. apply IH in H.
    destruct H as (evs & extra & -> & Hr & -> & Hlen & Htruthy).
    assert (Hev : exists evs1,
               (t1 ++ [SleepTenth]) ++ evs = t ++ evs1
               /\ search_rounds (query :: rest) evs1).
    { destruct Ht1 as [-> | ->].
      - exists (Search query "songs" :: SleepTenth :: evs).
        rewrite <- !app_assoc. split; [reflexivity | now constructor].
      - exists (Search query "songs" :: Search query "videos" :: SleepTenth :: evs).
        rewrite <- !app_assoc. split; [reflexivity | now constructor]. }
    destruct Hev as (evs1 & Hevs & Hrounds).
    destruct found as [video_id|].
    + exists evs1, (video_id :: extra).
      split; [assumption|]. split; [assumption|].
      split; [now rewrite <- app_assoc|]. split; [simpl; lia|].
      constructor; [now apply Hfound | assumption].
    + exists evs1, extra.
      split; [assumption|]. split; [assumption|].
      split; [reflexivity|]. split; [simpl; lia | assumption].
Qed.

Lemma search_rounds_no_add queries evs :
  search_rounds queries evs -> filter is_add evs = [].
Proof. induction 1; simpl; auto. Qed.

Lemma find_playlist_skips title l1 rest :
  Forall (fun x => playlist_ok x = true /\ title_is title x = false) l1 ->
  find_playlist title (l1 ++ rest) = find_playlist title rest.
Proof.
  induction 1 as [|p l1 [Hok Htitle] _ IH]; simpl; [reflexivity|].
  destruct p as [| | | | |d]; try discriminate.
  unfold playlist_ok in Hok. unfold title_is in Htitle. unfold subscript, lower_of.
  destruct (Py.lookup "title" d) as [[| | |s| |]|]; try discriminate.
  now rewrite Htitle.
Qed.

Lemma find_or_create_events title description t res t' :
  _find_or_create_playlist ytm repr title description t = (res, t') ->
  exists evs, t' = t ++ evs /\ filter is_add evs = [].
Proof.
  unfold _find_or_create_playlist, call.
  destruct (match ytm (List.length t) (GetLibraryPlaylists 200) with
            | Gives playlists =>
                match Py.iter playlists with
                | Ok items => find_playlist title items
                | Raise _ => LookupRaise
                end
            | Throws _ => LookupRaise
            end);
    try (intros H; inversion H; subst; exists [GetLibraryPlaylists 200];
         now split);
    destruct (ytm _ (CreatePlaylist title description "PRIVATE"));
    intros H; inversion H; subst;
    exists [GetLibraryPlaylists 200; CreatePlaylist title description "PRIVATE"];
    rewrite <- app_assoc; now split.
Qed.
End YTMusicFacts.

(** X21: The searches go through the queries in order: each query is searched
    once among the songs, at most once more among the videos, and followed
    by one pause; the ids returned are at most one for each query, and each
    is a value that counts as true. *)
Theorem search_for_videos_protocol ytm queries t video_ids t' :
  _search_for_videos ytm queries t = (video_ids, t') ->
  exists evs,
    t' = t ++ evs
    /\ search_rounds queries evs
    /\ (List.length video_ids <= List.length queries)%nat
    /\ Forall (fun x => Py.truthy x = true) video_ids.
Proof.
  intros H. apply search_loop_rounds in H.
  destruct H as (evs & extra & Ht & Hr & -> & Hlen & Htruthy).
  exists evs. auto.
Qed.

Lemma search_for_videos_protocol_witness :
  exists evs,
    [Search "Artist - Song 1" "songs"; SleepTenth] = [] ++ evs
    /\ search_rounds ["Artist - Song 1"] evs
    /\ (List.length [JStr "video123"] <= List.length ["Artist - Song 1"])%nat
    /\ Forall (fun x => Py.truthy x = true) [JStr "video123"].
Proof.
  apply (search_for_videos_protocol
           (fun _ _ => Gives (JList [JDict [("videoId", JStr "video123")]]))
           ["Artist - Song 1"] [] [JStr "video123"]
           [Search "Artist - Song 1" "songs"; SleepTenth]).
  reflexivity.
Defined.

(** X22: A playlist of the library whose title is the wanted title up to letter
    case is reused: its id is returned after the one listing call, and no
    playlist is created. *)
Theorem find_or_create_reuses ytm repr title description t l1 p l2 playlist_id :
  ytm (List.length t) (GetLibraryPlaylists 200) = Gives (JList (l1 ++ p :: l2)) ->
  Forall (fun x => playlist_ok x = true /\ title_is title x = false) l1 ->
  title_is title p = true ->
  subscript p "playlistId" = inr playlist_id ->
  _find_or_create_playlist ytm repr title description t
  = (Done playlist_id, t ++ [GetLibraryPlaylists 200]).
Proof.
  intros Hlist Hl1 Htitle Hid. unfold _find_or_create_playlist, call.
  rewrite Hlist. cbn [Py.iter]. rewrite (find_playlist_skips title l1 _ Hl1).
  cbn [find_playlist]. destruct p as [| | | | |d]; try discriminate.
  unfold title_is in Htitle. rewrite Hid. unfold subscript at 1, lower_of.
  destruct (Py.lookup "title" d) as [[| | |s| |]|]; try discriminate.
  now rewrite Htitle.
Qed.

Lemma find_or_create_reuses_witness :
  _find_or_create_playlist
    (fun _ _ => Gives (JList [playlist_json "Other" "PL1";
                              playlist_json "Megadeth LIVE" "PL2"]))
    (fun _ => EmptyString) "megadeth live" "description" []
  = (Done (JStr "PL2"), [] ++ [GetLibraryPlaylists 200]).
Proof.
  refine (find_or_create_reuses
            (fun _ _ => Gives (JList [playlist_json "Other" "PL1";
                                      playlist_json "Megadeth LIVE" "PL2"]))
            (fun _ => EmptyString) "megadeth live" "description" []
            [playlist_json "Other" "PL1"] (playlist_json "Megadeth LIVE" "PL2") []
            (JStr "PL2") eq_refl _ eq_refl eq_refl).
  constructor; [split; reflexivity | constructor].
Defined.

(** X23: A private playlist is created when the listing fails, when no title of
    the library is the wanted one, and also when the first entry of the
    library has no title: the error that entry causes is swallowed and
    hides every playlist behind it. *)
Theorem find_or_create_creates ytm repr title description t created :
  (exists what, ytm (List.length t) (GetLibraryPlaylists 200) = Throws what)
  \/ (exists l, ytm (List.length t) (GetLibraryPlaylists 200) = Gives (JList l)
                /\ Forall (fun x => playlist_ok x = true
                                    /\ title_is title x = false) l)
  \/ (exists d rest,
         ytm (List.length t) (GetLibraryPlaylists 200)
         = Gives (JList (JDict d :: rest))
         /\ Py.lookup "title" d = None) ->
  ytm (S (List.length t)) (CreatePlaylist title description "PRIVATE")
  = Gives (JStr created) ->
  _find_or_create_playlist ytm repr title description t
  = (Done (JStr created),
     t ++ [GetLibraryPlaylists 200; CreatePlaylist title description "PRIVATE"]).
Proof.
  intros Hlist Hcreate. unfold _find_or_create_playlist, call.
  assert (Hlen : List.length (t ++ [GetLibraryPlaylists 200]) = S (List.length t))
    by (rewrite length_app; simpl; lia).
  destruct Hlist as [[what H]|[(l & H & Hl)|(d & rest & H & Hd)]]; rewrite H.
  - rewrite Hlen, Hcreate. simpl. now rewrite <- app_assoc.
  - cbn [Py.iter].
    rewrite <- (app_nil_r l), (find_playlist_skips title l [] Hl).
    cbn [find_playlist]. rewrite Hlen, Hcreate. simpl. now rewrite <- app_assoc.
  - cbn [Py.iter find_playlist subscript]. rewrite Hd.
    rewrite Hlen, Hcreate. simpl. now rewrite <- app_assoc.
Qed.

Lemma find_or_create_creates_witness :
  _find_or_create_playlist
    (fun k c => match c with
                | GetLibraryPlaylists _ =>
                    Gives (JList [JDict [("playlistId", JStr "PL0")];
                                  playlist_json "Megadeth Live" "PL2"])
                | _ => Gives (JStr "PLnew")
                end)
    (fun _ => EmptyString) "Megadeth Live" "description" []
  = (Done (JStr "PLnew"),
     [] ++ [GetLibraryPlaylists 200;
            CreatePlaylist "Megadeth Live" "description" "PRIVATE"]).
Proof.
  apply (find_or_create_creates
           (fun k c => match c with
                | GetLibraryPlaylists _ =>
                    Gives (JList [JDict [("playlistId", JStr "PL0")];
                                  playlist_json "Megadeth Live" "PL2"])
                | _ => Gives (JStr "PLnew")
                end)
           (fun _ => EmptyString) "Megadeth Live" "description" [] "PLnew").
  - right. right. exists [("playlistId", JStr "PL0")],
      [playlist_json "Megadeth Live" "PL2"].
    split; reflexivity.
  - reflexivity.
Defined.

(** X24: Tracks are added in one call, the last of the run, with the id of the
    playlist, all the ids found and [duplicates=True]; and when no id was
    found nothing is added at all. *)
Theorem create_or_update_adds_once ytm repr title description queries t
  playlist_id video_ids t' :
  create_or_update_ytmusic_playlist ytm repr title description queries t
  = (Done (playlist_id, video_ids), t') ->
  exists evs,
    filter is_add evs = []
    /\ t' = t ++ evs
            ++ match video_ids with
               | [] => []
               | _ :: _ => [AddPlaylistItems playlist_id video_ids true]
               end.
Proof.
  unfold create_or_update_ytmusic_playlist, call.
  destruct (_find_or_create_playlist ytm repr title description t)
    as [[pid|what] t1] eqn:Efind; [|discriminate].
  destruct (find_or_create_events _ _ _ _ _ _ _ Efind) as (evs1 & -> & Hadd1).
  destruct (_search_for_videos ytm queries (t ++ evs1)) as [ids t2] eqn:Esearch.
  unfold _search_for_videos in Esearch.
  destruct (search_loop_rounds _ _ _ _ _ _ Esearch)
    as (evs2 & extra & -> & Hrounds & _).
  pose proof (search_rounds_no_add _ _ Hrounds) as Hadd2.
  assert (Hadd : filter is_add (evs1 ++ evs2) = [])
    by now rewrite filter_app, Hadd1, Hadd2.
  destruct ids as [|v ids].
  - intros H. inversion H; subst. exists (evs1 ++ evs2).
    split; [assumption|]. now rewrite app_nil_r, app_assoc.
  - destruct (ytm _ (AddPlaylistItems pid (v :: ids) true)); [|discriminate].
    intros H. inversion H; subst. exists (evs1 ++ evs2).
    split; [assumption|]. now rewrite <- !app_assoc.
Qed.

Lemma create_or_update_adds_once_witness :
  exists evs,
    filter is_add evs = []
    /\ [GetLibraryPlaylists 200; Search "Artist - Song 1" "songs"; SleepTenth;
        AddPlaylistItems (JStr "PL2") [JStr "video123"] true]
       = [] ++ evs ++ [AddPlaylistItems (JStr "PL2") [JStr "video123"] true].
Proof.
  apply (create_or_update_adds_once
           (fun k c => match c with
                | GetLibraryPlaylists _ =>
                    Gives (JList [playlist_json "Top Live" "PL2"])
                | _ => Gives (JList [JDict [("videoId", JStr "video123")]])
                end)
           (fun _ => EmptyString) "Top Live" "description" ["Artist - Song 1"] []
           (JStr "PL2") [JStr "video123"]).
  reflexivity.
Defined.

Lemma append_inj_r (a s1 s2 : string) :
  (a ++ s1 = a ++ s2)%string -> s1 = s2.
Proof.
  induction a as [|c a IH]; simpl; [auto|]. intros H. inversion H. auto.
Qed.

Lemma build_queries_NoDup artist titles :
  NoDup titles -> NoDup (build_queries artist titles).
Proof.
  unfold build_queries. induction 1 as [|t titles Hnotin _ IH]; simpl;
    constructor; [|assumption].
  intros Hin. apply in_map_iff in Hin. destruct Hin as (t' & Heq & Hin').
  apply append_inj_r in Heq. apply (append_inj_r " - ") in Heq. now subst t'.
Qed.

(** X25: The queries built for the ranked titles are pairwise distinct, one for
    each title and in the order of the ranking, whatever the artist and the
    number of tracks asked for. *)
Theorem ranked_queries_distinct artist L n :
  NoDup (build_queries artist (top_songs L n))
  /\ List.length (build_queries artist (top_songs L n))
     = List.length (top_songs L n)
  /\ forall i title,
       nth_error (top_songs L n) i = Some title ->
       nth_error (build_queries artist (top_songs L n)) i
       = Some (artist ++ " - " ++ title)%string.
Proof.
  split; [|split].
  - apply build_queries_NoDup.
    destruct (top_songs_firstn L n) as [k ->].
    apply (firstn_incl_NoDup _ (map fst (ranking L)) k (ranking_titles_NoDup L)).
  - unfold build_queries. apply length_map.
  - intros i title H. unfold build_queries.
    now rewrite nth_error_map, H.
Qed.

(* ================================================================== *)
(** * Properties of the command line checks, and of the year filter *)

Lemma validate_args_accepts tracks year :
  validate_args tracks year = None ->
  1 <= tracks <= 100 /\ 1950 <= year <= 2030.
Proof.
  unfold validate_args.
  destruct (Z.ltb_spec tracks 1); [discriminate|].
  destruct (Z.gtb_spec tracks 100); [discriminate|].
  destruct (Z.ltb_spec year 1950); [discriminate|].
  destruct (Z.gtb_spec year 2030); [discriminate|]. lia.
Qed.

(** X26: With arguments that the command line accepts, and songs to rank (the
    run stops before the ranking when there are none), the ranking holds at
    least one title and at most 100, and no more than were asked for. *)
Theorem accepted_tracks_ranking tracks year L :
  validate_args tracks year = None ->
  L <> [] ->
  (1 <= List.length (top_songs L tracks) <= 100)%nat
  /\ Z.of_nat (List.length (top_songs L tracks)) <= tracks.
Proof.
  intros Hv HL. apply validate_args_accepts in Hv. destruct Hv as [Ht _].
  assert (Hlen : List.length (top_songs L tracks)
                 = Nat.min (Z.to_nat tracks) (distinct_titles L)).
  { rewrite top_songs_nonneg by lia.
    now rewrite length_firstn, length_map, ranking_length. }
  rewrite Hlen.
  assert (Hd : (1 <= distinct_titles L)%nat).
  { unfold distinct_titles. destruct L as [|x L]; [congruence|].
    assert (Hin : In x (nodup string_dec (x :: L)))
      by (apply nodup_In; now left).
    destruct (nodup string_dec (x :: L)); [destruct Hin | simpl; lia]. }
  lia.
Qed.

Lemma accepted_tracks_ranking_witness :
  (1 <= List.length (top_songs ["b"; "a"; "b"] 20) <= 100)%nat
  /\ Z.of_nat (List.length (top_songs ["b"; "a"; "b"] 20)) <= 20.
Proof.
  apply (accepted_tracks_ranking 20 2024 ["b"; "a"; "b"]).
  - reflexivity.
  - discriminate.
Defined.

Lemma year_range_four_digits :
  forallb (fun k => let y := 1950 + Z.of_nat k in
                    Nat.eqb (String.length (PyStr.str y)) 4
                    && PyStr.isdigit (PyStr.str y))
    (seq 0 81) = true.
Proof. vm_compute. reflexivity. Qed.

(** X27: A year that the command line accepts is written with four decimal
    digits, so the comparison of the last four characters of an event date
    with [str(year)] is a comparison of like with like. *)
Theorem accepted_year_four_digits tracks year :
  validate_args tracks year = None ->
  String.length (PyStr.str year) = 4%nat
  /\ PyStr.isdigit (PyStr.str year) = true.
Proof.
  intros Hv. apply validate_args_accepts in Hv. destruct Hv as [_ Hy].
  pose proof year_range_four_digits as H. rewrite forallb_forall in H.
  specialize (H (Z.to_nat (year - 1950))).
  cbv zeta in H. rewrite Z2Nat.id in H by lia.
  replace (1950 + (year - 1950)) with year in H by lia.
  assert (Hin : In (Z.to_nat (year - 1950)) (seq 0 81)) by (apply in_seq; lia).
  apply H in Hin. apply andb_prop in Hin. destruct Hin as [Hlen Hdig].
  apply Nat.eqb_eq in Hlen. auto.
Qed.

Lemma accepted_year_four_digits_witness :
  String.length (PyStr.str 2024) = 4%nat /\ PyStr.isdigit (PyStr.str 2024) = true.
Proof.
  apply (accepted_year_four_digits 20 2024). reflexivity.
Defined.

Lemma substring_length n m s :
  (n + m <= String.length s)%nat -> String.length (substring n m s) = m.
Proof.
  revert n m. induction s as [|c s IH]; intros n m H; simpl in H.
  - assert (n = 0%nat) by lia. assert (m = 0%nat) by lia. subst. reflexivity.
  - destruct n as [|n].
    + destruct m as [|m]; [reflexivity|]. simpl. f_equal. apply IH. lia.
    + simpl. apply IH. lia.
Qed.

(** The year filter compares characters, not numbers: a year that is not
    written with four characters matches no event date. *)
Lemma page_songs_odd_year year entries :
  String.length (PyStr.str year) <> 4%nat ->
  page_songs year entries = [].
Proof.
  intros Hy. unfold page_songs.
  induction entries as [|entry rest IH]; simpl; [reflexivity|].
  rewrite IH, app_nil_r. unfold year_matches.
  destruct (Py.get entry "eventDate" (JStr EmptyString)) as [[| | |s| |]|];
    try reflexivity.
  destruct (Z.leb_spec 10 (PyStr.len s)); [|reflexivity].
  destruct (String.eqb_spec (PyStr.last4 s) (PyStr.str year)) as [E|_];
    [|reflexivity].
  exfalso. apply Hy. rewrite <- E. unfold PyStr.last4.
  apply substring_length. unfold PyStr.len in *. lia.
Qed.

Lemma scan_setlists_odd_year year entries songs older res flag :
  String.length (PyStr.str year) <> 4%nat ->
  scan_setlists year entries songs older = Ok (res, flag) ->
  res = songs.
Proof.
  intros Hy Hscan. apply scan_setlists_collects in Hscan.
  now rewrite (page_songs_odd_year _ _ Hy), app_nil_r in Hscan.
Qed.

Lemma process_page_odd_year year page_num r songs outcome :
  String.length (PyStr.str year) <> 4%nat ->
  process_page year page_num r songs = Ok outcome ->
  outcome_songs outcome = songs.
Proof.
  intros Hy Hproc. unfold process_page, response_json, rbind in Hproc.
  destruct (status_code r =? 404); [now inversion Hproc|].
  destruct (body r) as [data|]; [|discriminate].
  destruct (Py.get data "setlist" (JList [])) as [setlists|]; [|discriminate].
  destruct (negb (Py.truthy setlists)); [now inversion Hproc|].
  destruct (Py.iter setlists) as [entries|]; [|discriminate].
  destruct (scan_setlists year entries songs false) as [[res flag]|] eqn:Escan;
    [|discriminate].
  apply (scan_setlists_odd_year _ _ _ _ _ _ Hy) in Escan. subst res.
  destruct flag; [now inversion Hproc|].
  destruct (Py.get data "total" (JInt 0)) as [total|]; [|discriminate].
  destruct (Py.get data "itemsPerPage" (JInt 20)) as [ipp|]; [|discriminate].
  destruct (Py.mul_int page_num ipp) as [prod|]; [|discriminate].
  destruct (Py.ge prod total) as [[|]|]; inversion Hproc; reflexivity.
Qed.

Lemma fetch_pages_odd_year
  response_bool net mbid year pages_left page_num songs t res t' :
  String.length (PyStr.str year) <> 4%nat ->
  fetch_pages response_bool net mbid year pages_left page_num songs t
  = (Ok res, t') ->
  res = songs.
Proof.
  intros Hy. revert page_num songs t.
  induction pages_left as [|n IH]; intros p songs t Hrun.
  - now inversion Hrun.
  - rewrite fetch_pages_step in Hrun.
    destruct (make_request _ _ _ _ _ t) as [[r|e] t1]; [|discriminate].
    destruct (process_page year p r songs) as [outcome|e] eqn:Eproc;
      [|discriminate].
    apply (process_page_odd_year _ _ _ _ _ Hy) in Eproc.
    destruct outcome as [s|s]; simpl in Eproc; subst s.
    + now inversion Hrun.
    + now apply IH in Hrun.
Qed.

(** The four characters need not be digits: the year -999 is written with
    four, and a date that ends in them is of that year. *)
Example negative_year_matches :
  PyStr.str (-999) = "-999"
  /\ process_page (-999) 1
       (setlists_page [dated_setlist "15-10--999"] 1 1) []
     = Ok (Break [JStr "Song 1"; JStr "Song 2"]).
Proof. split; reflexivity. Qed.

(** X13: A target year that is not written with four characters (a year from
    0 to 999, above 9999, or below -999) matches no event date.  The scan of
    a page then returns the songs it was given, and it raises only on a
    page that holds an entry that is no catalog record; a page that is
    processed adds no song; and a call that returns, returns no song. *)
Theorem odd_year_collects_nothing year :
  String.length (PyStr.str year) <> 4%nat ->
  (forall entries songs older,
      match scan_setlists year entries songs older with
      | Ok (songs', _) => songs' = songs
      | Raise _ => ~ Forall (fun entry => catalog_entry entry = true) entries
      end)
  /\ (forall page_num r songs outcome,
         process_page year page_num r songs = Ok outcome ->
         outcome_songs outcome = songs)
  /\ (forall response_bool net mbid max_pages t songs t',
         fetch_setlists_for_year response_bool net mbid year max_pages t
         = (Ok songs, t') ->
         songs = []).
Proof.
  intros Hy. split; [|split].
  - intros entries songs older.
    destruct (scan_setlists year entries songs older) as [[res flag]|e] eqn:Escan.
    + apply (scan_setlists_odd_year _ _ _ _ _ _ Hy Escan).
    + intros Hall.
      destruct (scan_setlists_total year entries songs older Hall)
        as (res & flag & E).
      congruence.
  - intros page_num r songs outcome. apply process_page_odd_year, Hy.
  - intros rb net mbid max_pages t songs t' Hrun.
    apply fetch_setlists_for_year_cases in Hrun.
    destruct Hrun as [Hrun|[[e He] _]]; [|discriminate].
    apply (fetch_pages_odd_year _ _ _ _ _ _ _ _ _ _ Hy Hrun).
Qed.

Lemma odd_year_collects_nothing_witness :
  match scan_setlists 999
          [dated_setlist "15-10-0999"; dated_setlist "15-10-1999"]
          [JStr "Earlier"] false with
  | Ok (songs', _) => songs' = [JStr "Earlier"]
  | Raise _ =>
      ~ Forall (fun entry => catalog_entry entry = true)
          [dated_setlist "15-10-0999"; dated_setlist "15-10-1999"]
  end.
Proof.
  apply (proj1 (odd_year_collects_nothing 999 ltac:(vm_compute; discriminate))
           [dated_setlist "15-10-0999"; dated_setlist "15-10-1999"]
           [JStr "Earlier"] false).
Defined.
